(** * rocRAND benchmark tuning: registration matrix and timed run

    A shallow embedding of [benchmark/tuning/benchmark_tuning.hpp] and
    [benchmark/tuning/benchmarked_generators.hpp].

    Template parameters become ordinary arguments: an output type [T] is a
    value of [output_type], a [GeneratorTemplate] a value of
    [generator_template], a [Distribution] a value of [distribution].  The
    benchmark list [m_benchmarks] that the factory holds by reference is
    passed in and returned.  The thread and block counts are naturals ([N]),
    as in the specification ("positive integers"): the element type of the
    option tables is fixed by a header that is not part of the sources
    modelled here.  Sizes in bytes and in items are [std::size_t] values,
    with products taken modulo 2^64. *)

From stdpp Require Import base decidable list numbers strings pretty.
From Stdlib Require Import Ascii QArith.

Local Open Scope N_scope.

(** ** Output types and generator families *)

(** The value types [add_all_benchmarks_for_generator] instantiates. *)
Inductive output_type : Set :=
  | unsigned_int
  | unsigned_char
  | unsigned_short
  | unsigned_long_long
  | float
  | half
  | double.

#[global] Instance output_type_eq_dec : EqDecision output_type.
Proof. solve_decision. Defined.

(** [std::is_integral_v<T>] *)
Definition is_integral (T : output_type) : bool :=
  match T with
  | unsigned_int | unsigned_char | unsigned_short | unsigned_long_long => true
  | float | half | double => false
  end.

(** [std::is_floating_point_v<T>]: [half] is a class type, not a standard
    floating-point type. *)
Definition is_floating_point (T : output_type) : bool :=
  match T with
  | float | double => true
  | _ => false
  end.

(** [sizeof(T)] *)
Definition sizeof (T : output_type) : N :=
  match T with
  | unsigned_char => 1
  | unsigned_short | half => 2
  | unsigned_int | float => 4
  | unsigned_long_long | double => 8
  end.

(** A [template<class ConfigProvider> class GeneratorTemplate].  The one the
    sources name is [rocrand_xorwow_template]; [other_template] stands for
    any further family, told apart by a tag. *)
Inductive generator_template : Set :=
  | rocrand_xorwow_template
  | other_template (tag : N).

#[global] Instance generator_template_eq_dec : EqDecision generator_template.
Proof. solve_decision. Defined.

(** [output_type_supported<T, GeneratorTemplate>::value]: the primary
    template derives from [std::true_type]; the single specialization, for
    [unsigned long long] and xorwow, derives from [std::false_type]. *)
Definition output_type_supported (T : output_type) (G : generator_template) : bool :=
  match T, G with
  | unsigned_long_long, rocrand_xorwow_template => false
  | _, _ => true
  end.

(** ** Launch shapes *)

Record generator_config : Set := { threads : N; blocks : N }.

#[global] Instance generator_config_eq_dec : EqDecision generator_config.
Proof. solve_decision. Defined.

(** [static_config_provider<Threads, Blocks>]: its [static_config] is
    [{Threads, Blocks}], whatever the architecture, ordering or stream. *)
Record static_config_provider : Set := { static_config : generator_config }.

Definition make_static_config_provider (Threads Blocks : N) : static_config_provider :=
  {| static_config := {| threads := Threads; blocks := Blocks |} |}.

Definition device_config (P : static_config_provider) (is_dynamic : bool) : generator_config :=
  static_config P.

(** [host_config] overwrites [config] and reports [hipSuccess] ([true]). *)
Definition host_config (P : static_config_provider) (config : generator_config)
  : bool * generator_config :=
  (true, static_config P).

(** ** Distributions *)

(** The one [rocrand_discrete_method] the factory names. *)
Inductive discrete_method : Set := ROCRAND_DISCRETE_METHOD_ALIAS.

(** The distribution class templates the factory instantiates.
    [uniform_distribution T None] is [uniform_distribution<T>], with the
    second template argument left to its default; [Some U] gives it. *)
Inductive distribution : Set :=
  | uniform_distribution (T : output_type) (Input : option output_type)
  | normal_distribution (T : output_type)
  | log_normal_distribution (T : output_type)
  | rocrand_poisson_distribution (method : discrete_method).

#[global] Instance discrete_method_eq_dec : EqDecision discrete_method.
Proof. solve_decision. Defined.
#[global] Instance distribution_eq_dec : EqDecision distribution.
Proof. solve_decision. Defined.

Record benchmark_config : Set := { size : N }.

(** ** Registered benchmarks *)

(** What [benchmark::RegisterBenchmark] receives: the name and the closure
    [[*this](auto& state) { run_benchmark<T, GeneratorTemplate<ConfigProvider>,
    Distribution>(state, m_config); }].  The closure is kept as the data it
    captures by value. *)
Record Benchmark : Set := RegisterBenchmark {
  benchmark_name : string;
  run_T : output_type;
  run_GeneratorTemplate : generator_template;
  run_ConfigProvider : static_config_provider;
  run_Distribution : distribution;
  run_config : benchmark_config
}.

Definition launch_shape (b : Benchmark) : N * N :=
  (threads (static_config (run_ConfigProvider b)),
   blocks (static_config (run_ConfigProvider b))).

(** The result of [add_benchmarks_impl] is only looked at through these. *)
Definition registered_as (b : Benchmark) : distribution * (N * N) :=
  (run_Distribution b, launch_shape b).

(** ** The combination table *)

(** Keeps the first occurrence of every element. *)
Fixpoint remove_duplicates {A} `{EqDecision A} (l : list A) : list A :=
  match l with
  | [] => []
  | x :: l => x :: filter (λ y, y ≠ x) (remove_duplicates l)
  end.

(** Modelled from the spec: [cpp_utils::numeric_combinations] is declared in
    rng/cpp_utils.hpp, which is not among the sources.  The specification
    describes its result as the cross product of the two option lists, the
    first list in the outer iteration and the second in the inner one, with
    duplicates removed. *)
Definition numeric_combinations (first second : list N) : list (N * N) :=
  remove_duplicates (x ← first; y ← second; [(x, y)]).

(** [std::to_string] of an unsigned value: its decimal digits. *)
Definition to_string (n : N) : string := pretty n.

(** [rocrand_rng_type] is a C enumeration. *)
Definition rocrand_rng_type : Set := N.

(** [generator_benchmark_factory<GeneratorTemplate>]: the template argument
    and the two data members.  [m_benchmarks] is a reference to the caller's
    vector, so every member function returns the factory with the vector as
    it has become. *)
Record generator_benchmark_factory : Set := {
  GeneratorTemplate : generator_template;
  m_config : benchmark_config;
  m_benchmarks : list Benchmark
}.

(** The factory with its list replaced. *)
Definition with_benchmarks (self : generator_benchmark_factory) (l : list Benchmark)
  : generator_benchmark_factory :=
  {| GeneratorTemplate := GeneratorTemplate self;
     m_config := m_config self;
     m_benchmarks := l |}.

Definition push_back (b : Benchmark) (self : generator_benchmark_factory)
  : generator_benchmark_factory :=
  {| GeneratorTemplate := GeneratorTemplate self;
     m_config := m_config self;
     m_benchmarks := m_benchmarks self ++ [b] |}.

(** ** The timed run *)

Inductive hipEvent_t : Set := start | stop.

#[global] Instance hipEvent_t_eq_dec : EqDecision hipEvent_t.
Proof. solve_decision. Defined.

(** [class Generator] of [run_benchmark]: a generator template applied to a
    config provider. *)
Definition Generator : Set := generator_template * static_config_provider.

(** Values of type [float].  A value is given by the rational it stands
    for, or it is a quotient taken in [float] arithmetic; that division is
    left uninterpreted, so nothing is assumed about how it rounds. *)
Inductive float32 : Set :=
  | float_of (q : Q)
  | float_div (x y : float32).

(** [std::size_t] is 64 bits wide: a product of two [size_t] values is
    taken modulo 2^64.  In a product with a [size_t] operand a non-negative
    [int64_t] operand is converted to [size_t] with its value unchanged. *)
Definition size_t_mul (a b : N) : N := (a * b) mod 2 ^ 64.

(** A [size_t] value handed over as an [int64_t] keeps its 64 bits: from
    2^63 on it reads as a negative number. *)
Definition to_int64 (x : N) : Z :=
  if x <? 2 ^ 63 then Z.of_N x else (Z.of_N x - 2 ^ 64)%Z.

(** The calls [run_benchmark] makes on the device runtime, on the generator
    and on [benchmark::State], with the arguments that matter here. *)
Inductive call : Set :=
  | hipMalloc (bytes : N)
  | set_stream
  | generate (g : Generator) (count : N) (d : distribution)
  | hipDeviceSynchronize
  | hipEventCreate (e : hipEvent_t)
  | hipEventRecord (e : hipEvent_t)
  | hipEventSynchronize (e : hipEvent_t)
  | hipEventElapsedTime (from to : hipEvent_t)
  | hipEventDestroy (e : hipEvent_t)
  | hipFree
  | SetIterationTime (seconds : float32)
  | SetBytesProcessed (bytes : Z)
  | SetItemsProcessed (items : Z).

#[global] Instance static_config_provider_eq_dec : EqDecision static_config_provider.
Proof. solve_decision. Defined.
#[global] Instance Q_eq_dec : EqDecision Q.
Proof. solve_decision. Defined.
#[global] Instance float32_eq_dec : EqDecision float32.
Proof. solve_decision. Defined.
#[global] Instance call_eq_dec : EqDecision call.
Proof. solve_decision. Defined.

(** [benchmark::State], as far as [run_benchmark] uses it: the number of
    iterations the range-for loop is going to make (chosen by the benchmark
    library), the count [iterations()] reports, and what has been reported. *)
Record State : Set := {
  max_iterations : nat;
  iterations : N;
  iteration_times : list float32;
  bytes_processed : option Z;
  items_processed : option Z
}.

(** Everything a run can change: the log of calls, the number of checked
    calls made so far, the resources held, and the benchmark state. *)
Record world : Set := {
  calls : list call;
  checked_calls : nat;
  data : bool;
  events : list hipEvent_t;
  state : State
}.

Definition initial_state (n : nat) : State :=
  {| max_iterations := n; iterations := 0; iteration_times := [];
     bytes_processed := None; items_processed := None |}.

Definition initial_world (n : nat) : world :=
  {| calls := []; checked_calls := 0; data := false; events := [];
     state := initial_state n |}.

(** The device and the generator library, seen from the host: whether the
    [k]-th checked call of the run succeeds, and the milliseconds
    [hipEventElapsedTime] writes if it is that call. *)
Record device : Type := {
  succeeds : nat → bool;
  elapsed_ms : nat → Q
}.

(** A run either comes back or is cut short at a failed check. *)
Inductive outcome (A : Type) : Type :=
  | Returned (a : A) (w : world)
  | Failed (at_call : call) (w : world).
Arguments Returned {A} a w.
Arguments Failed {A} at_call w.

Definition run (A : Type) : Type := world → outcome A.

#[global] Instance run_ret : MRet run := λ A a w, Returned a w.
#[global] Instance run_bind : MBind run := λ A B f m w,
  match m w with
  | Returned a w' => f a w'
  | Failed c w' => Failed c w'
  end.

Definition log (c : call) (w : world) : world :=
  {| calls := calls w ++ [c]; checked_calls := checked_calls w;
     data := data w; events := events w; state := state w |}.

Definition set_data (b : bool) (w : world) : world :=
  {| calls := calls w; checked_calls := checked_calls w;
     data := b; events := events w; state := state w |}.

Definition set_events (es : list hipEvent_t) (w : world) : world :=
  {| calls := calls w; checked_calls := checked_calls w;
     data := data w; events := es; state := state w |}.

Definition set_state (st : State) (w : world) : world :=
  {| calls := calls w; checked_calls := checked_calls w;
     data := data w; events := events w; state := st |}.

Definition tick (w : world) : world :=
  {| calls := calls w; checked_calls := S (checked_calls w);
     data := data w; events := events w; state := state w |}.

(** What a successful call does to the resources held. *)
Definition effect (c : call) (w : world) : world :=
  match c with
  | hipMalloc _ => set_data true w
  | hipFree => set_data false w
  | hipEventCreate e => set_events (events w ++ [e]) w
  | hipEventDestroy e => set_events (filter (λ e', e' ≠ e) (events w)) w
  | _ => w
  end.

(** A call whose result is not looked at. *)
Definition unchecked (c : call) : run () := λ w, Returned () (log c w).

Section timed_run.
Variable dev : device.

(** Modelled from the spec: the macros [HIP_CHECK] and [ROCRAND_CHECK] are
    defined in benchmark_rocrand_utils.hpp, which is not among the sources.
    The specification has every non-success status abort the run at once,
    the failure going to the caller.  The call is made and logged; if it
    succeeds its effect takes place and the run goes on, otherwise the run
    ends there.  The value is the index of the call among the checked ones. *)
Definition HIP_CHECK (c : call) : run nat := λ w,
  let k := checked_calls w in
  let w' := tick (log c w) in
  if succeeds dev k then Returned k (effect c w') else Failed c w'.

Definition ROCRAND_CHECK (c : call) : run nat := HIP_CHECK c.

(** [state.SetIterationTime], [state.SetBytesProcessed],
    [state.SetItemsProcessed] and [state.iterations()] *)
Definition set_iteration_time (seconds : float32) : run () := λ w,
  let st := state w in
  Returned () (set_state
    {| max_iterations := max_iterations st; iterations := iterations st;
       iteration_times := iteration_times st ++ [seconds];
       bytes_processed := bytes_processed st;
       items_processed := items_processed st |} (log (SetIterationTime seconds) w)).

Definition set_bytes_processed (n : Z) : run () := λ w,
  let st := state w in
  Returned () (set_state
    {| max_iterations := max_iterations st; iterations := iterations st;
       iteration_times := iteration_times st;
       bytes_processed := Some n;
       items_processed := items_processed st |} (log (SetBytesProcessed n) w)).

Definition set_items_processed (n : Z) : run () := λ w,
  let st := state w in
  Returned () (set_state
    {| max_iterations := max_iterations st; iterations := iterations st;
       iteration_times := iteration_times st;
       bytes_processed := bytes_processed st;
       items_processed := Some n |} (log (SetItemsProcessed n) w)).

Definition get_iterations : run N := λ w, Returned (iterations (state w)) w.

(** One step of the iterator of [for(auto _ : state)]: the library counts
    the iteration that is about to run. *)
Definition next_iteration : run () := λ w,
  let st := state w in
  Returned () (set_state
    {| max_iterations := max_iterations st; iterations := N.succ (iterations st);
       iteration_times := iteration_times st;
       bytes_processed := bytes_processed st;
       items_processed := items_processed st |} w).

Fixpoint repeat_body (n : nat) (body : run ()) : run () :=
  match n with
  | O => mret ()
  | S n => next_iteration ;; body ;; repeat_body n body
  end.

(** [for(auto _ : state) body] *)
Definition for_state (body : run ()) : run () := λ w,
  repeat_body (max_iterations (state w)) body w.

Definition run_benchmark (T : output_type) (g : Generator) (Distribution : distribution)
    (config : benchmark_config) : run () :=
  HIP_CHECK (hipMalloc (size_t_mul (size config) (sizeof T))) ;;
  unchecked set_stream ;;
  let generate_func := generate g (size config) Distribution in
  (* Warm-up *)
  ROCRAND_CHECK generate_func ;;
  HIP_CHECK hipDeviceSynchronize ;;
  HIP_CHECK (hipEventCreate start) ;;
  HIP_CHECK (hipEventCreate stop) ;;
  for_state (
    HIP_CHECK (hipEventRecord start) ;;
    ROCRAND_CHECK generate_func ;;
    HIP_CHECK (hipEventRecord stop) ;;
    HIP_CHECK (hipEventSynchronize stop) ;;
    k ← HIP_CHECK (hipEventElapsedTime start stop) ;
    let elapsed := elapsed_ms dev k in
    set_iteration_time (float_div (float_of elapsed) (float_of 1000))) ;;
  n ← get_iterations ;
  set_bytes_processed
    (to_int64 (size_t_mul (size_t_mul n (size config)) (sizeof T))) ;;
  n ← get_iterations ;
  set_items_processed (to_int64 (size_t_mul n (size config))) ;;
  HIP_CHECK (hipEventDestroy stop) ;;
  HIP_CHECK (hipEventDestroy start) ;;
  HIP_CHECK hipFree ;;
  mret ().

End timed_run.

(** A device on which every call succeeds and every measured interval is
    the same. *)
Definition healthy (ms : Q) : device :=
  {| succeeds := λ _, true; elapsed_ms := λ _, ms |}.

(** A device whose [k]-th checked call fails, all others succeeding. *)
Definition failing_at (k : nat) (ms : Q) : device :=
  {| succeeds := λ i, negb (Nat.eqb i k); elapsed_ms := λ _, ms |}.

(** The calls that go through [HIP_CHECK] or [ROCRAND_CHECK]. *)
Definition is_checked (c : call) : bool :=
  match c with
  | set_stream | SetIterationTime _ | SetBytesProcessed _ | SetItemsProcessed _ => false
  | _ => true
  end.

(** The function a call is a call of, its arguments left aside. *)
Definition function_called (c : call) : string :=
  match c with
  | hipMalloc _ => "hipMalloc"
  | set_stream => "set_stream"
  | generate _ _ _ => "generate"
  | hipDeviceSynchronize => "hipDeviceSynchronize"
  | hipEventCreate _ => "hipEventCreate"
  | hipEventRecord _ => "hipEventRecord"
  | hipEventSynchronize _ => "hipEventSynchronize"
  | hipEventElapsedTime _ _ => "hipEventElapsedTime"
  | hipEventDestroy _ => "hipEventDestroy"
  | hipFree => "hipFree"
  | SetIterationTime _ => "SetIterationTime"
  | SetBytesProcessed _ => "SetBytesProcessed"
  | SetItemsProcessed _ => "SetItemsProcessed"
  end.

(** The log holds as many checked calls as have been counted, and a
    computation that keeps it so whether it returns or fails. *)
Definition log_counts_checks (w : world) : Prop :=
  length (filter is_checked (calls w)) = checked_calls w.

Definition keeps_log_count {A} (m : run A) : Prop :=
  ∀ w, log_counts_checks w →
    match m w with
    | Returned _ w' => log_counts_checks w'
    | Failed _ w' => log_counts_checks w'
    end.

(** *** The protocol of a run, spelled out

    The calls of one measured iteration that starts when [k] checked calls
    have been made, of [n] iterations in a row, and of a whole run. *)
Section protocol.
Variable dev : device.
Variable T : output_type.
Variable g : Generator.
Variable Distribution : distribution.
Variable config : benchmark_config.

Definition iteration_calls (k : nat) : list call :=
  [ hipEventRecord start;
    generate g (size config) Distribution;
    hipEventRecord stop;
    hipEventSynchronize stop;
    hipEventElapsedTime start stop;
    SetIterationTime (float_div (float_of (elapsed_ms dev (k + 4))) (float_of 1000)) ].

Fixpoint measured_calls (k n : nat) : list call :=
  match n with
  | O => []
  | S n => iteration_calls k ++ measured_calls (k + 5) n
  end.

Definition warm_up_calls : list call :=
  [ hipMalloc (size_t_mul (size config) (sizeof T));
    set_stream;
    generate g (size config) Distribution;
    hipDeviceSynchronize;
    hipEventCreate start;
    hipEventCreate stop ].

Definition closing_calls (n : nat) : list call :=
  [ SetBytesProcessed
      (to_int64 (size_t_mul (size_t_mul (N.of_nat n) (size config)) (sizeof T)));
    SetItemsProcessed (to_int64 (size_t_mul (N.of_nat n) (size config)));
    hipEventDestroy stop;
    hipEventDestroy start;
    hipFree ].

Definition protocol (n : nat) : list call :=
  warm_up_calls ++ measured_calls 5 n ++ closing_calls n.

(** The world after one iteration, and after [n], all calls succeeding. *)
Definition after_iteration (w : world) : world :=
  {| calls := calls w ++ iteration_calls (checked_calls w);
     checked_calls := checked_calls w + 5;
     data := data w;
     events := events w;
     state :=
       {| max_iterations := max_iterations (state w);
          iterations := N.succ (iterations (state w));
          iteration_times := iteration_times (state w)
            ++ [float_div (float_of (elapsed_ms dev (checked_calls w + 4)))
                  (float_of 1000)];
          bytes_processed := bytes_processed (state w);
          items_processed := items_processed (state w) |} |}.

Fixpoint after_iterations (n : nat) (w : world) : world :=
  match n with
  | O => w
  | S n => after_iterations n (after_iteration w)
  end.

End protocol.

(** How often [x] occurs in [l]. *)
Definition occurrences {A} `{EqDecision A} (x : A) (l : list A) : nat :=
  length (filter (λ y, y = x) l).

(** ** An instance of the parameters, for the examples

    The option lists and the minimum grid size of the second scenario of the
    specification, one engine name, and a naming of the distributions by kind
    and value type.  The names of distribution_traits.hpp enter the
    development only as the parameter [distribution_name] below. *)
Definition example_thread_options : list N := [64; 128].
Definition example_block_options : list N := [8].
Definition example_min_grid_size : N := 600.

Definition example_generator_type (G : generator_template) (P : static_config_provider)
  : rocrand_rng_type := 401.

Definition example_engine_name (rng_type : rocrand_rng_type) : string := "xorwow".

Definition type_name (T : output_type) : string :=
  match T with
  | unsigned_int => "uint"
  | unsigned_char => "uchar"
  | unsigned_short => "ushort"
  | unsigned_long_long => "ullong"
  | float => "float"
  | half => "half"
  | double => "double"
  end.

Definition example_distribution_name (D : distribution) : string :=
  match D with
  | uniform_distribution T _ => "uniform_" +:+ type_name T
  | normal_distribution T => "normal_" +:+ type_name T
  | log_normal_distribution T => "log_normal_" +:+ type_name T
  | rocrand_poisson_distribution _ => "poisson"
  end.


(** A naming by kind alone, the same for every value type. *)
Definition kind_name (D : distribution) : string :=
  match D with
  | uniform_distribution _ _ => "uniform"
  | normal_distribution _ => "normal"
  | log_normal_distribution _ => "log_normal"
  | rocrand_poisson_distribution _ => "poisson"
  end.

Definition example_config : benchmark_config := {| size := 1024 |}.

Definition example_generator : Generator :=
  (rocrand_xorwow_template, make_static_config_provider 128 8).

Section factory.
(** benchmark_tuning_setup.hpp (generated by CMake from the cache variables
    BENCHMARK_TUNING_THREAD_OPTIONS, BENCHMARK_TUNING_BLOCK_OPTIONS and
    BENCHMARK_TUNING_MIN_GRID_SIZE) *)
Variable thread_options block_options : list N.
Variable min_benchmarked_grid_size : N.
(** [Generator{}.type()] for [Generator = GeneratorTemplate<ConfigProvider>] *)
Variable generator_type : generator_template → static_config_provider → rocrand_rng_type.
(** benchmark_rocrand_utils.hpp *)
Variable engine_name : rocrand_rng_type → string.
(** distribution_traits.hpp: [distribution_name<Distribution>{}()] *)
Variable distribution_name : distribution → string.

Definition s_param_combinations : list (N * N) :=
  numeric_combinations thread_options block_options.

Definition get_benchmark_name (G : generator_template)
    (Distribution : distribution) (StaticConfigProvider : static_config_provider) : string :=
  let rng_type := generator_type G StaticConfigProvider in
  (((((engine_name rng_type +:+ "_") +:+ distribution_name Distribution) +:+ "_t")
     +:+ to_string (threads (static_config StaticConfigProvider))) +:+ "_b")
    +:+ to_string (blocks (static_config StaticConfigProvider)).

(** The body of the lambda that the fold expression runs for one index. *)
Definition add_benchmark_at (T : output_type) (Distribution : distribution)
    (self : generator_benchmark_factory) (combination_idx : nat)
  : generator_benchmark_factory :=
  match s_param_combinations !! combination_idx with
  | None => self
  | Some current_combination =>
      let Threads := current_combination.1 in
      let Blocks := current_combination.2 in
      let grid_size := Threads * Blocks in
      if decide (grid_size < min_benchmarked_grid_size) then self
      else
        let ConfigProvider := make_static_config_provider Threads Blocks in
        let name := get_benchmark_name (GeneratorTemplate self) Distribution ConfigProvider in
        push_back (RegisterBenchmark name T (GeneratorTemplate self) ConfigProvider
                     Distribution (m_config self)) self
  end.

(** The fold over [std::make_index_sequence<s_param_combinations.size()>]. *)
Definition add_benchmarks_impl (T : output_type) (Distribution : distribution)
    (self : generator_benchmark_factory) : generator_benchmark_factory :=
  foldl (add_benchmark_at T Distribution) self (seq 0 (length s_param_combinations)).

Definition add_benchmarks (T : output_type) (self : generator_benchmark_factory)
  : generator_benchmark_factory :=
  if negb (output_type_supported T (GeneratorTemplate self)) then self
  else if is_integral T then
    let UniformDistribution :=
      if decide (T = unsigned_long_long)
      then uniform_distribution unsigned_long_long (Some unsigned_long_long)
      else uniform_distribution T None in
    let self := add_benchmarks_impl T UniformDistribution self in
    if decide (T = unsigned_int)
    then add_benchmarks_impl T (rocrand_poisson_distribution ROCRAND_DISCRETE_METHOD_ALIAS) self
    else self
  else if is_floating_point T || bool_decide (T = half) then
    let self := add_benchmarks_impl T (uniform_distribution T None) self in
    let self := add_benchmarks_impl T (normal_distribution T) self in
    add_benchmarks_impl T (log_normal_distribution T) self
  else self.

Definition add_all_benchmarks_for_generator (G : generator_template)
    (benchmarks : list Benchmark) (config : benchmark_config) : list Benchmark :=
  let benchmark_factory :=
    {| GeneratorTemplate := G; m_config := config; m_benchmarks := benchmarks |} in
  let benchmark_factory := add_benchmarks unsigned_int benchmark_factory in
  let benchmark_factory := add_benchmarks unsigned_char benchmark_factory in
  let benchmark_factory := add_benchmarks unsigned_short benchmark_factory in
  let benchmark_factory := add_benchmarks unsigned_long_long benchmark_factory in
  let benchmark_factory := add_benchmarks float benchmark_factory in
  let benchmark_factory := add_benchmarks half benchmark_factory in
  let benchmark_factory := add_benchmarks double benchmark_factory in
  m_benchmarks benchmark_factory.

(** *** The registration matrix, spelled out *)

(** The combinations that pass the grid-size test of [add_benchmarks_impl]. *)
Definition retained_combinations : list (N * N) :=
  filter (λ c, ¬ (c.1 * c.2 < min_benchmarked_grid_size)) s_param_combinations.

(** The benchmark [add_benchmarks_impl] appends for one combination. *)
Definition make_benchmark (G : generator_template) (config : benchmark_config)
    (T : output_type) (Distribution : distribution) (c : N * N) : Benchmark :=
  let ConfigProvider := make_static_config_provider c.1 c.2 in
  RegisterBenchmark (get_benchmark_name G Distribution ConfigProvider)
    T G ConfigProvider Distribution config.

(** The uniform distribution used for an integral [T]. *)
Definition uniform_for (T : output_type) : distribution :=
  match T with
  | unsigned_long_long => uniform_distribution unsigned_long_long (Some unsigned_long_long)
  | _ => uniform_distribution T None
  end.

Definition poisson_alias : distribution :=
  rocrand_poisson_distribution ROCRAND_DISCRETE_METHOD_ALIAS.

(** The selection of distributions by type category, as a list. *)
Definition selected_distributions (T : output_type) : list distribution :=
  match T with
  | unsigned_int => [uniform_for unsigned_int; poisson_alias]
  | unsigned_char | unsigned_short | unsigned_long_long => [uniform_for T]
  | float | half | double =>
      [uniform_distribution T None; normal_distribution T; log_normal_distribution T]
  end.

Definition applicable_distributions (G : generator_template) (T : output_type)
  : list distribution :=
  if output_type_supported T G then selected_distributions T else [].

(** The order in which [add_all_benchmarks_for_generator] goes through the
    output types. *)
Definition output_types : list output_type :=
  [unsigned_int; unsigned_char; unsigned_short; unsigned_long_long; float; half; double].

Definition registered_for (G : generator_template) (config : benchmark_config)
    (T : output_type) : list Benchmark :=
  D ← applicable_distributions G T; make_benchmark G config T D <$> retained_combinations.

(** A factory whose list is empty. *)
Definition fresh_factory (G : generator_template) (config : benchmark_config)
  : generator_benchmark_factory :=
  {| GeneratorTemplate := G; m_config := config; m_benchmarks := [] |}.

(** ** Properties of the combination table *)

Lemma elem_of_remove_duplicates {A} `{EqDecision A} (l : list A) (x : A) :
  x ∈ remove_duplicates l ↔ x ∈ l.
Proof.
  induction l as [|y l IH]; simpl; [done|].
  rewrite !elem_of_cons, list_elem_of_filter, IH.
  destruct (decide (x = y)) as [->|Hne]; [by split; auto|].
  split; [intros [?|[? ?]]|intros [?|?]]; auto.
Qed.

Lemma NoDup_remove_duplicates {A} `{EqDecision A} (l : list A) :
  NoDup (remove_duplicates l).
Proof.
  induction l as [|y l IH]; simpl; constructor.
  - rewrite list_elem_of_filter. by intros [Hne _].
  - by apply NoDup_filter.
Qed.

Lemma elem_of_numeric_combinations (first second : list N) (x y : N) :
  (x, y) ∈ numeric_combinations first second ↔ x ∈ first ∧ y ∈ second.
Proof.
  unfold numeric_combinations.
  rewrite elem_of_remove_duplicates, list_elem_of_bind.
  split.
  - intros (x' & Hin & Hx'). apply list_elem_of_bind in Hin as (y' & Hin & Hy').
    apply list_elem_of_singleton in Hin. by simplify_eq.
  - intros [Hx Hy]. exists x. split; [|done].
    apply list_elem_of_bind. exists y. by rewrite list_elem_of_singleton.
Qed.

Lemma NoDup_s_param_combinations : NoDup s_param_combinations.
Proof. apply NoDup_remove_duplicates. Qed.

Lemma NoDup_retained_combinations : NoDup retained_combinations.
Proof. apply NoDup_filter, NoDup_s_param_combinations. Qed.

Lemma elem_of_retained_combinations (t b : N) :
  (t, b) ∈ retained_combinations
  ↔ t ∈ thread_options ∧ b ∈ block_options ∧ min_benchmarked_grid_size ≤ t * b.
Proof.
  unfold retained_combinations, s_param_combinations.
  rewrite list_elem_of_filter, elem_of_numeric_combinations. simpl.
  rewrite N.nlt_ge. tauto.
Qed.

(** ** What the factory appends *)

(** Going through the indices of a table and looking each one up is going
    through the table. *)
Lemma foldl_indices {A B} (f : B → option A → B) (l : list A) (b : B) :
  foldl (λ acc i, f acc (l !! i)) b (seq 0 (length l))
  = foldl (λ acc x, f acc (Some x)) b l.
Proof.
  cut (∀ k pre b,
    foldl (λ acc i, f acc ((pre ++ k) !! i)) b (seq (length pre) (length k))
    = foldl (λ acc x, f acc (Some x)) b k).
  { intros Hcut. apply (Hcut l []). }
  intros k. induction k as [|x k IH]; intros pre acc; simpl; [done|].
  rewrite list_lookup_middle by done.
  specialize (IH (pre ++ [x]) (f acc (Some x))).
  rewrite length_app, Nat.add_1_r, <- (assoc_L (++)) in IH. apply IH.
Qed.

Lemma add_benchmarks_impl_appends T D self :
  add_benchmarks_impl T D self
  = with_benchmarks self
      (m_benchmarks self
         ++ (make_benchmark (GeneratorTemplate self) (m_config self) T D
               <$> retained_combinations)).
Proof.
  unfold add_benchmarks_impl, retained_combinations.
  pose (step := λ (acc : generator_benchmark_factory) (o : option (N * N)),
    match o with
    | None => acc
    | Some c =>
        if decide (c.1 * c.2 < min_benchmarked_grid_size) then acc
        else push_back (make_benchmark (GeneratorTemplate acc) (m_config acc) T D c) acc
    end).
  change (add_benchmark_at T D)
    with (λ acc i, step acc (s_param_combinations !! i)).
  rewrite (foldl_indices step).
  generalize s_param_combinations. intros l. revert self.
  induction l as [|c l IH]; intros self; simpl.
  - destruct self. unfold with_benchmarks. simpl. by rewrite (right_id_L [] (++)).
  - rewrite IH. rewrite filter_cons. simpl.
    destruct (decide (c.1 * c.2 < min_benchmarked_grid_size)) as [Hlt|Hge].
    + by rewrite decide_False by (by intros H; apply H).
    + rewrite decide_True by done. unfold with_benchmarks, push_back. simpl.
      by rewrite <- (assoc_L (++)).
Qed.

Lemma add_benchmarks_appends T self :
  add_benchmarks T self
  = with_benchmarks self
      (m_benchmarks self ++ registered_for (GeneratorTemplate self) (m_config self) T).
Proof.
  unfold add_benchmarks, registered_for, applicable_distributions.
  destruct (output_type_supported T (GeneratorTemplate self)); simpl.
  - destruct T; simpl; rewrite !add_benchmarks_impl_appends; simpl;
      unfold with_benchmarks; simpl;
      by rewrite ?(right_id_L [] (++)), <- ?(assoc_L (++)).
  - destruct self. unfold with_benchmarks. simpl. by rewrite (right_id_L [] (++)).
Qed.

Lemma add_all_benchmarks_appends G benchmarks config :
  add_all_benchmarks_for_generator G benchmarks config
  = benchmarks ++ (T ← output_types; registered_for G config T).
Proof.
  unfold add_all_benchmarks_for_generator.
  rewrite !add_benchmarks_appends. simpl.
  by rewrite ?(right_id_L [] (++)), <- ?(assoc_L (++)).
Qed.

Lemma registered_for_fresh G config T :
  m_benchmarks (add_benchmarks T (fresh_factory G config)) = registered_for G config T.
Proof. by rewrite add_benchmarks_appends. Qed.

Lemma registered_as_make_benchmark G config T D (l : list (N * N)) :
  registered_as <$> (make_benchmark G config T D <$> l) = pair D <$> l.
Proof.
  rewrite <- list_fmap_compose. apply list_fmap_ext.
  by intros _ [t b] _.
Qed.

Lemma registered_as_registered_for G config T :
  registered_as <$> registered_for G config T
  = D ← applicable_distributions G T; pair D <$> retained_combinations.
Proof.
  unfold registered_for.
  induction (applicable_distributions G T) as [|D ds IH]; [done|].
  by rewrite !bind_cons, fmap_app, registered_as_make_benchmark, IH.
Qed.

Lemma elem_of_registered_for G config T b :
  b ∈ registered_for G config T
  ↔ ∃ D c, D ∈ applicable_distributions G T ∧ c ∈ retained_combinations
           ∧ b = make_benchmark G config T D c.
Proof.
  unfold registered_for. rewrite list_elem_of_bind. split.
  - intros (D & Hb & HD). apply list_elem_of_fmap in Hb as (c & -> & Hc). eauto.
  - intros (D & c & HD & Hc & ->). exists D. split; [|done].
    by apply list_elem_of_fmap_2.
Qed.

(** ** Counting *)

Lemma occurrences_app {A} `{EqDecision A} (x : A) (l k : list A) :
  occurrences x (l ++ k) = (occurrences x l + occurrences x k)%nat.
Proof. unfold occurrences. by rewrite filter_app, length_app. Qed.

Lemma occurrences_not_elem_of {A} `{EqDecision A} (x : A) (l : list A) :
  x ∉ l → occurrences x l = 0%nat.
Proof.
  unfold occurrences. induction l as [|y l IH]; [done|].
  rewrite not_elem_of_cons. intros [Hne Hnin].
  rewrite filter_cons, decide_False by done. auto.
Qed.

Lemma occurrences_NoDup {A} `{EqDecision A} (x : A) (l : list A) :
  NoDup l → x ∈ l → occurrences x l = 1%nat.
Proof.
  induction 1 as [|y l Hnin Hnd IH]; [by rewrite elem_of_nil|].
  rewrite elem_of_cons. unfold occurrences in *. rewrite filter_cons.
  intros [->|Hin].
  - rewrite decide_True by done. simpl. f_equal.
    by apply (occurrences_not_elem_of y l).
  - rewrite decide_False by (by intros ->). auto.
Qed.

Lemma occurrences_pair {A B} `{EqDecision A, EqDecision B} (a a' : A) (b : B) (l : list B) :
  occurrences (a, b) (pair a' <$> l)
  = if decide (a' = a) then occurrences b l else 0%nat.
Proof.
  unfold occurrences. destruct (decide (a' = a)) as [->|Hne].
  - induction l as [|y l IH]; [done|].
    rewrite fmap_cons, !filter_cons. destruct (decide (y = b)) as [->|Hyb].
    + rewrite decide_True by done. simpl. by rewrite IH.
    + by rewrite decide_False by congruence.
  - induction l as [|y l IH]; [done|].
    by rewrite fmap_cons, filter_cons, decide_False by congruence.
Qed.

Lemma occurrences_product {A B} `{EqDecision A, EqDecision B}
    (a : A) (b : B) (ds : list A) (l : list B) :
  occurrences (a, b) (d ← ds; pair d <$> l)
  = (occurrences a ds * occurrences b l)%nat.
Proof.
  induction ds as [|d ds IH]; [done|].
  rewrite bind_cons, occurrences_app, occurrences_pair, IH.
  replace (occurrences a (d :: ds))
    with ((if decide (d = a) then 1 else 0) + occurrences a ds)%nat
    by (unfold occurrences; rewrite filter_cons; by destruct (decide (d = a))).
  destruct (decide (d = a)); lia.
Qed.

(** Each retained combination carries each applicable distribution as often
    as the distribution is selected. *)
Lemma occurrences_registered_for G config T D s :
  s ∈ retained_combinations →
  occurrences (D, s) (registered_as <$> registered_for G config T)
  = occurrences D (applicable_distributions G T).
Proof.
  intros Hs. rewrite registered_as_registered_for, occurrences_product.
  rewrite (occurrences_NoDup s) by auto using NoDup_retained_combinations. lia.
Qed.

Lemma length_registered_for G config T :
  length (registered_for G config T)
  = (length (applicable_distributions G T) * length retained_combinations)%nat.
Proof.
  unfold registered_for.
  induction (applicable_distributions G T) as [|D ds IH]; [done|].
  by rewrite bind_cons, length_app, length_fmap, IH.
Qed.

(** ** The registration matrix *)

(** C1.  Whatever the option lists and the minimum grid size, the launch
    shapes for which [add_benchmarks_impl] appends a benchmark are exactly
    the pairs (threads, blocks) of the cross product of the two lists with
    threads * blocks at least the minimum; no shape is appended twice, and
    none lies outside the cross product. *)
Theorem registered_shapes_exact T D self :
  ∃ new,
    m_benchmarks (add_benchmarks_impl T D self) = m_benchmarks self ++ new
    ∧ NoDup (launch_shape <$> new)
    ∧ ∀ t b, (t, b) ∈ launch_shape <$> new
        ↔ t ∈ thread_options ∧ b ∈ block_options
          ∧ min_benchmarked_grid_size ≤ t * b.
Proof.
  eexists. split; [by rewrite add_benchmarks_impl_appends|].
  assert (launch_shape <$>
            (make_benchmark (GeneratorTemplate self) (m_config self) T D
               <$> retained_combinations) = retained_combinations) as ->.
  { rewrite <- list_fmap_compose. rewrite <- (list_fmap_id retained_combinations) at 2.
    apply list_fmap_ext. by intros _ [t b] _. }
  split; [apply NoDup_retained_combinations|].
  apply elem_of_retained_combinations.
Qed.

(** C2.  When [output_type_supported] is false for the output type and the
    generator family, [add_benchmarks] returns the factory as it was: nothing
    is registered, the benchmark list is unchanged, and there is no failure
    to report. *)
Theorem unsupported_type_registers_nothing T self :
  output_type_supported T (GeneratorTemplate self) = false →
  add_benchmarks T self = self.
Proof. intros Hun. unfold add_benchmarks. by rewrite Hun. Qed.

(** C3.  For an integral output type, the benchmarks [add_benchmarks]
    appends all carry that type and a retained launch shape, and their
    distribution is the uniform one of that width or, for [unsigned int]
    only, the alias-method Poisson one.  On a family that supports the type,
    every retained launch shape carries the uniform distribution exactly
    once, and the Poisson distribution exactly once for [unsigned int] and
    never for the 8-, 16- and 64-bit types. *)
Theorem integral_types_uniform_and_poisson T self :
  is_integral T = true →
  ∃ new,
    m_benchmarks (add_benchmarks T self) = m_benchmarks self ++ new
    ∧ (∀ b, b ∈ new →
         run_T b = T ∧ launch_shape b ∈ retained_combinations
         ∧ (run_Distribution b = uniform_for T
            ∨ T = unsigned_int ∧ run_Distribution b = poisson_alias))
    ∧ (output_type_supported T (GeneratorTemplate self) = true →
       ∀ s, s ∈ retained_combinations →
         occurrences (uniform_for T, s) (registered_as <$> new) = 1%nat
         ∧ occurrences (poisson_alias, s) (registered_as <$> new)
           = if decide (T = unsigned_int) then 1%nat else 0%nat).
Proof.
  intros Hint. eexists. split; [by rewrite add_benchmarks_appends|]. split.
  - intros b (D & [t c] & HD & Hc & ->)%elem_of_registered_for.
    split; [done|]. split; [done|].
    unfold applicable_distributions in HD.
    destruct (output_type_supported T (GeneratorTemplate self));
      [|by apply elem_of_nil in HD].
    destruct T; try discriminate Hint; simpl in HD;
      repeat (apply elem_of_cons in HD as [->|HD]; [by auto|]);
      by apply elem_of_nil in HD.
  - intros Hsup s Hs. rewrite !occurrences_registered_for by done.
    unfold applicable_distributions. rewrite Hsup.
    by destruct T; try discriminate Hint.
Qed.

(** C4.  For [float], [double] and [half] on a family that supports the
    type, [add_benchmarks] appends exactly three benchmarks per retained
    launch shape: each of the uniform, normal and log-normal distributions
    of that type exactly once per shape, and nothing else. *)
Theorem floating_point_types_three_distributions T self :
  output_type_supported T (GeneratorTemplate self) = true →
  T ∈ [float; double; half] →
  ∃ new,
    m_benchmarks (add_benchmarks T self) = m_benchmarks self ++ new
    ∧ length new = (3 * length retained_combinations)%nat
    ∧ (∀ D s,
         D ∈ [uniform_distribution T None; normal_distribution T;
              log_normal_distribution T] →
         s ∈ retained_combinations →
         occurrences (D, s) (registered_as <$> new) = 1%nat)
    ∧ (∀ b, b ∈ new →
         run_T b = T ∧ launch_shape b ∈ retained_combinations
         ∧ run_Distribution b ∈ [uniform_distribution T None; normal_distribution T;
                                 log_normal_distribution T]).
Proof.
  intros Hsup HT. eexists. split; [by rewrite add_benchmarks_appends|].
  assert (applicable_distributions (GeneratorTemplate self) T
          = [uniform_distribution T None; normal_distribution T;
             log_normal_distribution T]) as Happ.
  { unfold applicable_distributions. rewrite Hsup.
    repeat (apply elem_of_cons in HT as [->|HT]; [done|]).
    by apply elem_of_nil in HT. }
  split; [by rewrite length_registered_for, Happ|]. split.
  - intros D s HD Hs. rewrite occurrences_registered_for, Happ by done.
    repeat (apply elem_of_cons in HD as [->|HD];
            [by destruct T; vm_compute|]).
    by apply elem_of_nil in HD.
  - intros b (D & [t c] & HD & Hc & ->)%elem_of_registered_for.
    by rewrite Happ in HD.
Qed.

(** C9.  [add_all_benchmarks_for_generator] appends to the list what
    [add_benchmarks] registers for [unsigned int], [unsigned char],
    [unsigned short], [unsigned long long], [float], [half] and [double],
    in this order; the benchmarks of one call all carry the type of that
    call, so the new benchmarks come grouped by output type in this order. *)
Theorem output_types_in_order G benchmarks config :
  add_all_benchmarks_for_generator G benchmarks config
  = benchmarks
    ++ (T ← [unsigned_int; unsigned_char; unsigned_short; unsigned_long_long;
             float; half; double];
        m_benchmarks (add_benchmarks T (fresh_factory G config)))
  ∧ ∀ T b, b ∈ m_benchmarks (add_benchmarks T (fresh_factory G config)) → run_T b = T.
Proof.
  split.
  - rewrite add_all_benchmarks_appends. f_equal.
    apply list_bind_ext; [|done]. intros T. by rewrite registered_for_fresh.
  - intros T b. rewrite registered_for_fresh.
    by intros (D & c & _ & _ & ->)%elem_of_registered_for.
Qed.

(** C10.  [output_type_supported] is false for [unsigned long long] on the
    xorwow family and true for every other pair of output type and family;
    so [add_all_benchmarks_for_generator] for xorwow appends no benchmark
    whose output type is [unsigned long long]. *)
Theorem xorwow_no_unsigned_long_long :
  (∀ T G, output_type_supported T G = false
          ↔ T = unsigned_long_long ∧ G = rocrand_xorwow_template)
  ∧ ∀ benchmarks config, ∃ new,
      add_all_benchmarks_for_generator rocrand_xorwow_template benchmarks config
      = benchmarks ++ new
      ∧ ∀ b, b ∈ new → run_T b ≠ unsigned_long_long.
Proof.
  split.
  - intros T G. split; [|by intros [-> ->]].
    by destruct T, G.
  - intros benchmarks config. eexists. split; [apply add_all_benchmarks_appends|].
    intros b (T & Hb & HT)%list_elem_of_bind.
    apply elem_of_registered_for in Hb as (D & c & HD & _ & ->). simpl.
    intros ->. by apply elem_of_nil in HD.
Qed.

(** ** Benchmark names *)

Lemma string_app_assoc (s1 s2 s3 : string) :
  (s1 +:+ s2) +:+ s3 = s1 +:+ (s2 +:+ s3).
Proof.
  induction s1 as [|a s1 IH]; [done|].
  change (String a ((s1 +:+ s2) +:+ s3) = String a (s1 +:+ (s2 +:+ s3))).
  by rewrite IH.
Qed.

(** Strings are compared through their characters. *)
Lemma chars_app (s1 s2 : string) :
  String.list_ascii_of_string (s1 +:+ s2)
  = String.list_ascii_of_string s1 ++ String.list_ascii_of_string s2.
Proof. induction s1 as [|a s1 IH]; simpl; [done|]. by rewrite <- IH. Qed.

Lemma chars_inj (s1 s2 : string) :
  String.list_ascii_of_string s1 = String.list_ascii_of_string s2 → s1 = s2.
Proof.
  intros Heq. rewrite <- (String.string_of_list_ascii_of_string s1),
    <- (String.string_of_list_ascii_of_string s2). by rewrite Heq.
Qed.

(** Two lists that agree and are both cut at the last occurrence of [c]
    agree on both sides of the cut. *)
Lemma cut_at_last {A} (c : A) (l1 l2 d1 d2 : list A) :
  c ∉ d1 → c ∉ d2 → l1 ++ c :: d1 = l2 ++ c :: d2 → l1 = l2 ∧ d1 = d2.
Proof.
  intros H1 H2. revert l2.
  induction l1 as [|x l1 IH]; intros [|y l2] Heq; simplify_eq/=.
  - done.
  - destruct H1. apply elem_of_app. right. apply list_elem_of_here.
  - destruct H2. apply elem_of_app. right. apply list_elem_of_here.
  - destruct (IH l2) as [-> ->]; done.
Qed.

Lemma pretty_N_char_digit (x : N) :
  pretty_N_char x ∈ ["0"; "1"; "2"; "3"; "4"; "5"; "6"; "7"; "8"; "9"]%char.
Proof.
  unfold pretty_N_char. repeat case_match; by apply (bool_decide_unpack _).
Qed.

Lemma pretty_N_go_digits (x : N) (s : string) (a : ascii) :
  a ∈ String.list_ascii_of_string (pretty_N_go x s) →
  a ∈ ["0"; "1"; "2"; "3"; "4"; "5"; "6"; "7"; "8"; "9"]%char
  ∨ a ∈ String.list_ascii_of_string s.
Proof.
  revert s. induction (N.lt_wf_0 x) as [x _ IH]. intros s.
  destruct (decide (x = 0)) as [->|Hx]; [rewrite pretty_N_go_0; auto|].
  rewrite pretty_N_go_step by lia. intros Ha.
  apply IH in Ha; [|apply N.div_lt; lia].
  destruct Ha as [Ha|Ha]; [by left|].
  simpl in Ha. apply elem_of_cons in Ha as [->|Ha]; [|by right].
  left. apply pretty_N_char_digit.
Qed.

(** [std::to_string] writes decimal digits only. *)
Lemma to_string_digits (n : N) (a : ascii) :
  a ∈ String.list_ascii_of_string (to_string n) →
  a ∈ ["0"; "1"; "2"; "3"; "4"; "5"; "6"; "7"; "8"; "9"]%char.
Proof.
  unfold to_string, pretty, pretty_N. case_decide.
  - simpl. rewrite list_elem_of_singleton. intros ->. apply list_elem_of_here.
  - intros [Ha|Ha]%pretty_N_go_digits; [done|]. by apply elem_of_nil in Ha.
Qed.

Lemma to_string_inj (m n : N) : to_string m = to_string n → m = n.
Proof. apply pretty_N_inj. Qed.

(** The name determines the distribution name and the launch shape: the
    block count is what follows the last [b], the thread count what lies
    between the last [t] before it and the underscore. *)
Lemma get_benchmark_name_inj G D1 D2 P1 P2 :
  get_benchmark_name G D1 P1 = get_benchmark_name G D2 P2 →
  distribution_name D1 = distribution_name D2 ∧ P1 = P2.
Proof.
  unfold get_benchmark_name. intros Heq.
  apply (f_equal String.list_ascii_of_string) in Heq.
  rewrite !chars_app in Heq. simpl in Heq.
  rewrite <- !(assoc_L (++)) in Heq. simpl in Heq.
  set (e1 := String.list_ascii_of_string (engine_name (generator_type G P1))) in *.
  set (e2 := String.list_ascii_of_string (engine_name (generator_type G P2))) in *.
  set (n1 := String.list_ascii_of_string (distribution_name D1)) in *.
  set (n2 := String.list_ascii_of_string (distribution_name D2)) in *.
  set (t1 := String.list_ascii_of_string (to_string (threads (static_config P1)))) in *.
  set (t2 := String.list_ascii_of_string (to_string (threads (static_config P2)))) in *.
  set (b1 := String.list_ascii_of_string (to_string (blocks (static_config P1)))) in *.
  set (b2 := String.list_ascii_of_string (to_string (blocks (static_config P2)))) in *.
  assert (∀ n, "b"%char ∉ String.list_ascii_of_string (to_string n)) as Hb.
  { intros n Hin%to_string_digits. by apply (bool_decide_pack _) in Hin. }
  assert (∀ n, "t"%char ∉ String.list_ascii_of_string (to_string n) ++ ["_"%char]) as Ht.
  { intros n [Hin%to_string_digits|Hin]%elem_of_app.
    - by apply (bool_decide_pack _) in Hin.
    - by apply (bool_decide_pack _) in Hin. }
  assert ((e1 ++ "_"%char :: n1 ++ "_"%char :: "t"%char :: t1 ++ ["_"%char])
            ++ "b"%char :: b1
          = (e2 ++ "_"%char :: n2 ++ "_"%char :: "t"%char :: t2 ++ ["_"%char])
            ++ "b"%char :: b2) as Hcut.
  { rewrite <- !(assoc_L (++)). simpl. rewrite <- !(assoc_L (++)). simpl.
    rewrite <- !(assoc_L (++)). exact Heq. }
  apply cut_at_last in Hcut as [Hcut Hblocks]; [|apply Hb..].
  assert ((e1 ++ "_"%char :: n1 ++ ["_"%char]) ++ "t"%char :: (t1 ++ ["_"%char])
          = (e2 ++ "_"%char :: n2 ++ ["_"%char]) ++ "t"%char :: (t2 ++ ["_"%char]))
    as Hcut'.
  { rewrite <- !(assoc_L (++)). simpl. rewrite <- !(assoc_L (++)). exact Hcut. }
  apply cut_at_last in Hcut' as [Hrest Hthreads]; [|apply Ht..].
  apply (inj (λ l, l ++ ["_"%char])) in Hthreads.
  apply chars_inj, to_string_inj in Hthreads, Hblocks.
  assert (P1 = P2) as ->.
  { destruct P1 as [[??]], P2 as [[??]]. simpl in *. by subst. }
  split; [|done]. apply chars_inj.
  subst e1 e2 n1 n2. apply (inj (app _)) in Hrest.
  injection Hrest as Hrest. by apply (inj (λ l, l ++ ["_"%char])) in Hrest.
Qed.

Lemma applicable_distributions_selected G T D :
  D ∈ applicable_distributions G T → D ∈ selected_distributions T.
Proof.
  unfold applicable_distributions.
  destruct (output_type_supported T G); [done|]. by intros ?%elem_of_nil.
Qed.

(** No distribution is selected for two output types, or twice for one. *)
Lemma NoDup_applicable_distributions G :
  NoDup (T ← output_types; applicable_distributions G T).
Proof. destruct G; by apply (bool_decide_unpack _). Qed.

Lemma registered_as_all G config :
  registered_as <$> (T ← output_types; registered_for G config T)
  = (T ← output_types; applicable_distributions G T)
      ≫= λ D, pair D <$> retained_combinations.
Proof.
  unfold output_types.
  rewrite !bind_cons, !bind_app, !fmap_app.
  by rewrite !registered_as_registered_for.
Qed.

Lemma NoDup_registered_as_all G config :
  NoDup (registered_as <$> (T ← output_types; registered_for G config T)).
Proof.
  rewrite registered_as_all. apply NoDup_bind.
  - intros D1 D2 [D c] _ _ (? & ? & _)%list_elem_of_fmap (? & ? & _)%list_elem_of_fmap.
    congruence.
  - intros D _. apply NoDup_fmap_2; [|apply NoDup_retained_combinations].
    by intros ?? [=].
  - apply NoDup_applicable_distributions.
Qed.

(** Under a naming that tells the distributions selected for the output
    types apart, the benchmarks that [add_all_benchmarks_for_generator]
    appends for one generator family, over all output types, distributions
    and launch shapes, have pairwise different names, each name being engine
    name, [_], distribution name, [_t], thread count, [_b], block count. *)
Theorem benchmark_names_unique G benchmarks config :
  (∀ T1 T2 D1 D2,
     D1 ∈ selected_distributions T1 → D2 ∈ selected_distributions T2 →
     distribution_name D1 = distribution_name D2 → D1 = D2) →
  ∃ new,
    add_all_benchmarks_for_generator G benchmarks config = benchmarks ++ new
    ∧ NoDup (benchmark_name <$> new)
    ∧ ∀ b, b ∈ new →
        benchmark_name b
        = engine_name (generator_type G (run_ConfigProvider b)) +:+ "_"
          +:+ distribution_name (run_Distribution b)
          +:+ "_t" +:+ to_string (launch_shape b).1
          +:+ "_b" +:+ to_string (launch_shape b).2.
Proof.
  intros Hnames. eexists. split; [apply add_all_benchmarks_appends|]. split.
  - apply NoDup_fmap_2_strong.
    + intros x y (Tx & Hx & _)%list_elem_of_bind (Ty & Hy & _)%list_elem_of_bind Heq.
      apply elem_of_registered_for in Hx as (Dx & cx & HDx & _ & ->).
      apply elem_of_registered_for in Hy as (Dy & cy & HDy & _ & ->).
      apply applicable_distributions_selected in HDx, HDy.
      apply get_benchmark_name_inj in Heq as [Hdn Hshape].
      apply (Hnames Tx Ty) in Hdn as ->; [|done..].
      assert (Tx = Ty) as ->.
      { clear -HDx HDy. destruct Tx; simpl in HDx;
          repeat (apply elem_of_cons in HDx as [->|HDx]);
          try (by apply elem_of_nil in HDx);
          destruct Ty; simpl in HDy;
          repeat (apply elem_of_cons in HDy as [?|HDy]);
          try (by apply elem_of_nil in HDy); done. }
      destruct cx, cy. unfold make_benchmark. simpl in *. by simplify_eq.
    + eapply NoDup_fmap_1, NoDup_registered_as_all.
  - intros b (T & Hb & _)%list_elem_of_bind.
    apply elem_of_registered_for in Hb as (D & [t c] & _ & _ & ->). simpl.
    unfold get_benchmark_name.
    by rewrite !string_app_assoc.
Qed.

(** ** Further properties of the factory *)

Lemma registered_for_nothing_retained G config T :
  retained_combinations = [] → registered_for G config T = [].
Proof.
  unfold registered_for. intros ->.
  induction (applicable_distributions G T) as [|D ds IH]; [done|].
  by rewrite bind_cons, IH.
Qed.

Lemma elem_of_all_registered G config b :
  b ∈ (T ← output_types; registered_for G config T)
  ↔ ∃ T D c, D ∈ applicable_distributions G T ∧ c ∈ retained_combinations
             ∧ b = make_benchmark G config T D c.
Proof.
  rewrite list_elem_of_bind. split.
  - intros (T & (D & c & ? & ? & ->)%elem_of_registered_for & _). eauto 6.
  - intros (T & D & c & HD & Hc & ->). exists T. split.
    + apply elem_of_registered_for. eauto.
    + destruct T; by apply (bool_decide_unpack _).
Qed.

(** X2.  [add_benchmarks_impl] goes through the table once, front to back:
    the launch shapes of the benchmarks it appends are the table entries of
    sufficient grid size in the order of the table, and each benchmark
    carries the value type and distribution of the call, the generator
    family and the configuration of the factory, and the name computed from
    its own family, distribution and config provider. *)
Theorem registration_follows_table T D self :
  ∃ new,
    m_benchmarks (add_benchmarks_impl T D self) = m_benchmarks self ++ new
    ∧ launch_shape <$> new
      = filter (λ c, min_benchmarked_grid_size ≤ c.1 * c.2) s_param_combinations
    ∧ ∀ b, b ∈ new →
        run_T b = T ∧ run_Distribution b = D
        ∧ run_GeneratorTemplate b = GeneratorTemplate self
        ∧ run_config b = m_config self
        ∧ benchmark_name b
          = get_benchmark_name (GeneratorTemplate self) D (run_ConfigProvider b).
Proof.
  eexists. split; [by rewrite add_benchmarks_impl_appends|]. split.
  - rewrite <- list_fmap_compose. unfold retained_combinations.
    induction s_param_combinations as [|[t b] l IH]; [done|].
    rewrite !filter_cons. simpl.
    destruct (decide (t * b < min_benchmarked_grid_size)) as [Hlt|Hge].
    + rewrite decide_False by (by intros H; apply H).
      by rewrite decide_False by lia.
    + rewrite decide_True by done. rewrite decide_True by lia.
      rewrite fmap_cons. by f_equal.
  - by intros b (c & -> & _)%list_elem_of_fmap.
Qed.

(** X3.  The size of the suite of one family: fourteen benchmarks per
    retained combination (two for [unsigned int], one for each of the other
    three integer types, three for each of the three floating-point types),
    thirteen for xorwow, which lacks [unsigned long long]. *)
Theorem suite_size G benchmarks config :
  length (add_all_benchmarks_for_generator G benchmarks config)
  = (length benchmarks
     + (if decide (G = rocrand_xorwow_template) then 13 else 14)
       * length retained_combinations)%nat.
Proof.
  rewrite add_all_benchmarks_appends, length_app. f_equal.
  unfold output_types. rewrite !bind_cons, !length_app, !length_registered_for.
  destruct G; simpl; lia.
Qed.

(** X5.  When no entry of the table reaches the minimum grid size, the empty
    table included, [add_all_benchmarks_for_generator] leaves the list as it
    is. *)
Theorem nothing_registered_below_minimum G benchmarks config :
  (∀ c, c ∈ s_param_combinations → c.1 * c.2 < min_benchmarked_grid_size) →
  add_all_benchmarks_for_generator G benchmarks config = benchmarks.
Proof.
  intros Hbelow.
  assert (retained_combinations = []) as Hnone.
  { unfold retained_combinations.
    induction s_param_combinations as [|c l IH]; [done|].
    rewrite filter_cons, decide_False.
    - apply IH. intros c' Hc'. apply Hbelow. by apply list_elem_of_further.
    - intros Hge. apply Hge, Hbelow, list_elem_of_here. }
  rewrite add_all_benchmarks_appends. unfold output_types.
  rewrite !bind_cons, !registered_for_nothing_retained by done.
  simpl. apply (right_id_L [] (++)).
Qed.

(** X12.  What is registered for a family does not depend on what the list
    holds already, so registering two families one after the other gives
    the old list, then the suite of the first, then the suite of the
    second. *)
Theorem registration_composes G1 G2 benchmarks config1 config2 :
  add_all_benchmarks_for_generator G2
    (add_all_benchmarks_for_generator G1 benchmarks config1) config2
  = benchmarks
    ++ add_all_benchmarks_for_generator G1 [] config1
    ++ add_all_benchmarks_for_generator G2 [] config2.
Proof.
  rewrite !add_all_benchmarks_appends. simpl. by rewrite <- (assoc_L (++)).
Qed.

(** X6.  The launch shape can be read back from a name alone: two names
    that agree belong to the same config provider, whatever the generator
    families, the engine names and the distributions are. *)
Theorem name_determines_launch_shape G1 G2 D1 D2 P1 P2 :
  get_benchmark_name G1 D1 P1 = get_benchmark_name G2 D2 P2 → P1 = P2.
Proof.
  unfold get_benchmark_name. intros Heq.
  apply (f_equal String.list_ascii_of_string) in Heq.
  rewrite !chars_app in Heq. simpl in Heq.
  rewrite <- !(assoc_L (++)) in Heq. simpl in Heq.
  set (e1 := String.list_ascii_of_string (engine_name (generator_type G1 P1))) in *.
  set (e2 := String.list_ascii_of_string (engine_name (generator_type G2 P2))) in *.
  set (n1 := String.list_ascii_of_string (distribution_name D1)) in *.
  set (n2 := String.list_ascii_of_string (distribution_name D2)) in *.
  set (t1 := String.list_ascii_of_string (to_string (threads (static_config P1)))) in *.
  set (t2 := String.list_ascii_of_string (to_string (threads (static_config P2)))) in *.
  set (b1 := String.list_ascii_of_string (to_string (blocks (static_config P1)))) in *.
  set (b2 := String.list_ascii_of_string (to_string (blocks (static_config P2)))) in *.
  assert (((e1 ++ "_"%char :: n1 ++ ["_"%char]) ++ "t"%char :: (t1 ++ ["_"%char]))
            ++ "b"%char :: b1
          = ((e2 ++ "_"%char :: n2 ++ ["_"%char]) ++ "t"%char :: (t2 ++ ["_"%char]))
            ++ "b"%char :: b2) as Hcut.
  { repeat (rewrite <- !(assoc_L (++)); simpl). exact Heq. }
  apply cut_at_last in Hcut as [Hcut Hblocks].
  2,3: subst b1 b2; intros Hin%to_string_digits; by apply (bool_decide_pack _) in Hin.
  apply cut_at_last in Hcut as [_ Hthreads].
  2,3: subst t1 t2; intros [Hin%to_string_digits|Hin]%elem_of_app;
       by apply (bool_decide_pack _) in Hin.
  apply (inj (λ l, l ++ ["_"%char])) in Hthreads.
  apply chars_inj, to_string_inj in Hthreads, Hblocks.
  destruct P1 as [[??]], P2 as [[??]]. simpl in *. by subst.
Qed.

Lemma NoDup_fmap_agree {A B} (f : A → B) (l : list A) (x y : A) :
  NoDup (f <$> l) → x ∈ l → y ∈ l → f x = f y → x = y.
Proof.
  induction l as [|z l IH]; [by intros _ ?%elem_of_nil|].
  rewrite fmap_cons, NoDup_cons, !elem_of_cons.
  intros [Hz Hnd] [->|Hx] [->|Hy] Heq; [done|..|by apply IH].
  - destruct Hz. rewrite Heq. by apply list_elem_of_fmap_2.
  - destruct Hz. rewrite <- Heq. by apply list_elem_of_fmap_2.
Qed.

(** X7.  The value type is no part of a name, so the names of a family
    collide as soon as two different applicable distributions have the same
    distribution name and some combination is retained. *)
Theorem same_distribution_name_collides G config T1 T2 D1 D2 :
  D1 ∈ applicable_distributions G T1 →
  D2 ∈ applicable_distributions G T2 →
  D1 ≠ D2 →
  distribution_name D1 = distribution_name D2 →
  retained_combinations ≠ [] →
  ¬ NoDup (benchmark_name <$> add_all_benchmarks_for_generator G [] config).
Proof.
  intros H1 H2 Hne Hdn Hsome Hnd.
  destruct retained_combinations as [|c l] eqn:Hret; [done|].
  assert (c ∈ retained_combinations) as Hc by (rewrite Hret; apply list_elem_of_here).
  rewrite add_all_benchmarks_appends in Hnd. simpl in Hnd.
  apply (NoDup_fmap_agree _ _ (make_benchmark G config T1 D1 c)
           (make_benchmark G config T2 D2 c)) in Hnd.
  - by injection Hnd.
  - apply elem_of_all_registered. eauto 6.
  - apply elem_of_all_registered. eauto 6.
  - simpl. unfold get_benchmark_name. by rewrite Hdn.
Qed.

(** X1.  The config provider of every benchmark of the suite reports, to the
    host and to the device alike and whatever it is asked with, one launch
    configuration: an entry of the table whose grid size reaches the
    minimum, and the one written in the name of the benchmark.  The host
    query always succeeds. *)
Theorem registered_launch_configuration G benchmarks config :
  ∃ new,
    add_all_benchmarks_for_generator G benchmarks config = benchmarks ++ new
    ∧ ∀ b, b ∈ new → ∀ (previous : generator_config) (is_dynamic : bool),
        let c := device_config (run_ConfigProvider b) is_dynamic in
        host_config (run_ConfigProvider b) previous = (true, c)
        ∧ (threads c, blocks c) ∈ s_param_combinations
        ∧ min_benchmarked_grid_size ≤ threads c * blocks c
        ∧ benchmark_name b
          = get_benchmark_name G (run_Distribution b)
              (make_static_config_provider (threads c) (blocks c)).
Proof.
  eexists. split; [apply add_all_benchmarks_appends|].
  intros b (T & D & [t k] & _ & Hc & ->)%elem_of_all_registered previous is_dynamic.
  simpl. split; [done|].
  apply list_elem_of_filter in Hc as [Hge Hc]. simpl in Hge.
  split; [done|]. split; [lia|done].
Qed.

End factory.

(** ** The timed run *)

Section run_properties.
Variable dev : device.
Variable T : output_type.
Variable g : Generator.
Variable Distribution : distribution.
Variable config : benchmark_config.

(** *** Running one step *)

Lemma bind_assoc_run {A B C} (m : run A) (f : A → run B) (h : B → run C) w :
  ((m ≫= f) ≫= h) w = (m ≫= λ a, f a ≫= h) w.
Proof. unfold mbind, run_bind. by destruct (m w). Qed.

Lemma HIP_CHECK_bind {B} c (f : nat → run B) w :
  (HIP_CHECK dev c ≫= f) w
  = if succeeds dev (checked_calls w)
    then f (checked_calls w) (effect c (tick (log c w)))
    else Failed c (tick (log c w)).
Proof.
  unfold mbind, run_bind, HIP_CHECK.
  by destruct (succeeds dev (checked_calls w)).
Qed.

Lemma ROCRAND_CHECK_bind {B} c (f : nat → run B) w :
  (ROCRAND_CHECK dev c ≫= f) w
  = if succeeds dev (checked_calls w)
    then f (checked_calls w) (effect c (tick (log c w)))
    else Failed c (tick (log c w)).
Proof. apply HIP_CHECK_bind. Qed.

Lemma pure_bind {A B} (m : run A) (f : A → run B) a w w' :
  m w = Returned a w' → (m ≫= f) w = f a w'.
Proof. unfold mbind, run_bind. by intros ->. Qed.

(** *** The measured loop *)

Lemma calls_after_iterations n w :
  calls (after_iterations dev g Distribution config n w)
  = calls w ++ measured_calls dev g Distribution config (checked_calls w) n.
Proof.
  revert w. induction n as [|n IH]; intros w; simpl.
  - by rewrite (right_id_L [] (++)).
  - rewrite IH. simpl. by rewrite <- (assoc_L (++)).
Qed.

Lemma resources_after_iterations n w :
  data (after_iterations dev g Distribution config n w) = data w
  ∧ events (after_iterations dev g Distribution config n w) = events w
  ∧ checked_calls (after_iterations dev g Distribution config n w)
    = (checked_calls w + 5 * n)%nat.
Proof.
  revert w. induction n as [|n IH]; intros w; simpl.
  - repeat split; lia.
  - destruct (IH (after_iteration dev g Distribution config w)) as (-> & -> & ->).
    simpl. repeat split; lia.
Qed.

Lemma state_after_iterations n w :
  let st := state (after_iterations dev g Distribution config n w) in
  max_iterations st = max_iterations (state w)
  ∧ iterations st = iterations (state w) + N.of_nat n
  ∧ length (iteration_times st) = (length (iteration_times (state w)) + n)%nat
  ∧ bytes_processed st = bytes_processed (state w)
  ∧ items_processed st = items_processed (state w).
Proof.
  revert w. induction n as [|n IH]; intros w; simpl.
  - repeat split; lia.
  - destruct (IH (after_iteration dev g Distribution config w)) as (-> & -> & -> & -> & ->).
    simpl. rewrite length_app. simpl. repeat split; lia.
Qed.

Tactic Notation "run_check" ident(H) :=
  rewrite ?bind_assoc_run;
  first [rewrite HIP_CHECK_bind | rewrite ROCRAND_CHECK_bind];
  match goal with
  | |- context [succeeds dev ?k] => destruct (succeeds dev k) eqn:H
  end;
  cbn [effect].

Ltac run_pure := rewrite ?bind_assoc_run; erewrite pure_bind by reflexivity.

Ltac world_fields :=
  cbn [calls checked_calls data events state tick log set_state set_data set_events
       initial_world].

Ltac log_is_prefix :=
  eexists; split;
    [|world_fields; rewrite <- ?(assoc_L (++)); cbn [app]; reflexivity];
  cbn [measured_calls]; unfold iteration_calls; cbn [app];
  repeat apply prefix_cons; apply prefix_nil.

Lemma repeat_body_outcome n w :
  match repeat_body n
    (HIP_CHECK dev (hipEventRecord start) ;;
     ROCRAND_CHECK dev (generate g (size config) Distribution) ;;
     HIP_CHECK dev (hipEventRecord stop) ;;
     HIP_CHECK dev (hipEventSynchronize stop) ;;
     k ← HIP_CHECK dev (hipEventElapsedTime start stop) ;
     set_iteration_time (float_div (float_of (elapsed_ms dev k)) (float_of 1000))) w
  with
  | Returned _ w' => w' = after_iterations dev g Distribution config n w
  | Failed c w' =>
      (∃ k, succeeds dev k = false)
      ∧ (∃ l, l `prefix_of` measured_calls dev g Distribution config (checked_calls w) n
              ∧ calls w' = calls w ++ l)
      ∧ data w' = data w ∧ events w' = events w
  end.
Proof.
  revert w. induction n as [|n IH]; intros w; [done|].
  cbn [repeat_body]. run_pure.
  run_check H1; [|by split; [eauto|split; [log_is_prefix|]]].
  run_check H2; [|by split; [eauto|split; [log_is_prefix|]]].
  run_check H3; [|by split; [eauto|split; [log_is_prefix|]]].
  run_check H4; [|by split; [eauto|split; [log_is_prefix|]]].
  run_check H5; [|by split; [eauto|split; [log_is_prefix|]]].
  run_pure.
  match goal with
  | |- context [repeat_body n _ ?W] =>
      assert (W = after_iteration dev g Distribution config w) as ->
  end.
  { destruct w as [cs k d es st].
    cbv [after_iteration iteration_calls tick log set_state
         calls checked_calls data events state].
    rewrite <- !(assoc_L (++)). cbn [app].
    replace (k + 5)%nat with (S (S (S (S (S k))))) by lia.
    replace (k + 4)%nat with (S (S (S (S k)))) by lia. done. }
  specialize (IH (after_iteration dev g Distribution config w)).
  destruct (repeat_body n _ _) as [[] w'|c w']; [done|].
  destruct IH as (Hfail & (l & Hl & Hcalls) & Hdata & Hevents).
  split; [done|]. split; [|done].
  exists (iteration_calls dev g Distribution config (checked_calls w) ++ l).
  split; [by apply prefix_app|].
  rewrite Hcalls. simpl. by rewrite <- (assoc_L (++)).
Qed.

(** *** The whole run *)

Lemma bind_case {A B} (m : run A) (f : A → run B) w :
  (m ≫= f) w
  = match m w with Returned a w' => f a w' | Failed c w' => Failed c w' end.
Proof. done. Qed.

Ltac early_failure :=
  split; [eauto|]; split;
    [world_fields; unfold protocol, warm_up_calls; cbn [app];
     repeat apply prefix_cons; apply prefix_nil
    |world_fields; congruence].

Ltac late_failure :=
  split; [eauto|]; split;
    [world_fields; unfold protocol, warm_up_calls, closing_calls;
     rewrite <- ?(assoc_L (++)); cbn [app];
     repeat apply prefix_cons; apply prefix_app;
     repeat apply prefix_cons; apply prefix_nil
    |world_fields; congruence].

Lemma run_benchmark_outcome n :
  match run_benchmark dev T g Distribution config (initial_world n) with
  | Returned _ w =>
      calls w = protocol dev T g Distribution config n
      ∧ data w = false ∧ events w = []
      ∧ iterations (state w) = N.of_nat n
      ∧ length (iteration_times (state w)) = n
      ∧ bytes_processed (state w)
        = Some (to_int64 (size_t_mul (size_t_mul (N.of_nat n) (size config)) (sizeof T)))
      ∧ items_processed (state w)
        = Some (to_int64 (size_t_mul (N.of_nat n) (size config)))
  | Failed c w =>
      (∃ k, succeeds dev k = false)
      ∧ calls w `prefix_of` protocol dev T g Distribution config n
      ∧ data w = succeeds dev 0
  end.
Proof.
  unfold run_benchmark.
  run_check H0; cbn [checked_calls initial_world] in H0; [|early_failure].
  run_pure.
  run_check H1; [|early_failure].
  run_check H2; [|early_failure].
  run_check H3; [|early_failure].
  run_check H4; [|early_failure].
  rewrite bind_case. unfold for_state at 1.
  match goal with
  | |- context [repeat_body _ _ ?W] =>
      pose proof (repeat_body_outcome n W) as Hloop;
      pose proof (calls_after_iterations n W) as Hcalls;
      pose proof (resources_after_iterations n W) as (Hdata & Hevents & Hchecked);
      pose proof (state_after_iterations n W) as (_ & Hiter & Htimes & Hbytes & Hitems);
      change (max_iterations (state W)) with n
  end.
  destruct (repeat_body n _ _) as [[] w|c w].
  - subst w. revert Hcalls Hdata Hevents Hchecked Hiter Htimes Hbytes Hitems.
    generalize (after_iterations dev g Distribution config n).
    intros after.
    match goal with |- context [after ?W] => generalize (after W) end.
    intros [cs k d es [mi it times bp ip]]. world_fields.
    cbn [iterations iteration_times bytes_processed items_processed
         set_iteration_time initial_state app length].
    intros -> -> -> -> Hit Htimes -> ->.
    rewrite N.add_0_l in Hit. subst it.
    run_pure. run_pure. run_pure. run_pure.
    run_check H5; [|late_failure].
    run_check H6; [|late_failure].
    run_check H7; [|late_failure].
    cbn [mret run_ret]. world_fields.
    cbn [state iterations iteration_times bytes_processed items_processed].
    unfold protocol, warm_up_calls, closing_calls.
    rewrite <- !(assoc_L (++)). cbn [app].
    repeat split; done.
  - destruct Hloop as (Hfail & (l & Hl & Hlog) & Hd & _).
    split; [done|]. split.
    + rewrite Hlog. unfold protocol. apply prefix_app. by apply prefix_app_r.
    + rewrite Hd. world_fields. congruence.
Qed.


(** *** What a run does *)


Lemma size_t_mul_mul (a b c : N) :
  size_t_mul (size_t_mul a b) c = (a * b * c) mod 2 ^ 64.
Proof. unfold size_t_mul. by rewrite N.Div0.mul_mod_idemp_l. Qed.

Lemma to_int64_small (x : N) : x < 2 ^ 63 → to_int64 (x mod 2 ^ 64) = Z.of_N x.
Proof.
  intros Hx. rewrite N.mod_small by (etrans; [exact Hx|done]).
  unfold to_int64. by rewrite (proj2 (N.ltb_lt _ _) Hx).
Qed.

Lemma sizeof_pos (U : output_type) : 1 ≤ sizeof U.
Proof. by destruct U. Qed.

(** C8, as amended.  A run that returns has made [n] measured iterations,
    [n] being what [iterations()] reports, and has reported
    [n * config.size * sizeof(T)] bytes and [n * config.size] items, each
    product taken modulo 2^64 and handed over as a signed 64-bit value;
    these are the exact products whenever [n * config.size * sizeof(T)] is
    below 2^63.  A run that does not return has met a failing call. *)
Theorem reported_totals n :
  match run_benchmark dev T g Distribution config (initial_world n) with
  | Returned _ w =>
      length (iteration_times (state w)) = n
      ∧ iterations (state w) = N.of_nat n
      ∧ bytes_processed (state w)
        = Some (to_int64 ((N.of_nat n * size config * sizeof T) mod 2 ^ 64))
      ∧ items_processed (state w)
        = Some (to_int64 ((N.of_nat n * size config) mod 2 ^ 64))
      ∧ (N.of_nat n * size config * sizeof T < 2 ^ 63 →
         bytes_processed (state w)
         = Some (Z.of_N (N.of_nat n * size config * sizeof T))
         ∧ items_processed (state w) = Some (Z.of_N (N.of_nat n * size config)))
  | Failed c w => ∃ k, succeeds dev k = false
  end.
Proof.
  pose proof (run_benchmark_outcome n) as H.
  destruct (run_benchmark _ _ _ _ _ _) as [[] w|c w]; [|by destruct H as (? & _)].
  destruct H as (_ & _ & _ & Hiter & Htimes & Hbytes & Hitems).
  rewrite size_t_mul_mul in Hbytes. unfold size_t_mul in Hitems.
  repeat (split; [done|]).
  intros Hsmall. rewrite Hbytes, Hitems.
  assert (N.of_nat n * size config < 2 ^ 63) as Hitems_small.
  { eapply N.le_lt_trans; [|exact Hsmall].
    rewrite <- (N.mul_1_r (N.of_nat n * size config)) at 1.
    apply N.mul_le_mono_l, sizeof_pos. }
  by rewrite !to_int64_small.
Qed.

(** *** Where a run stops *)

Ltac world_fields_in H :=
  cbn [calls checked_calls data events state tick log set_state set_data set_events
       initial_world] in H.

Ltac check_at j :=
  repeat match goal with
  | H : succeeds dev ?k = true |- _ =>
      destruct (decide (j = k)) as [->|?]; [exact H|clear H]
  end;
  exfalso; lia.

Ltac checks_below :=
  let j := fresh "j" in let Hj := fresh "Hj" in
  intros j Hj; check_at j.

Ltac stops_here k H :=
  exists k; world_fields;
  split; [lia|]; split; [exact H|]; split; [checks_below|];
  split; [reflexivity|]; split; [apply last_snoc|]; split; reflexivity.

(** The loop consults the device for five calls per iteration, in order, and
    stops at the first that fails; the totals are not touched. *)
Lemma repeat_body_checks n w :
  match repeat_body n
    (HIP_CHECK dev (hipEventRecord start) ;;
     ROCRAND_CHECK dev (generate g (size config) Distribution) ;;
     HIP_CHECK dev (hipEventRecord stop) ;;
     HIP_CHECK dev (hipEventSynchronize stop) ;;
     k ← HIP_CHECK dev (hipEventElapsedTime start stop) ;
     set_iteration_time (float_div (float_of (elapsed_ms dev k)) (float_of 1000))) w
  with
  | Returned _ w' =>
      ∀ k, (checked_calls w ≤ k < checked_calls w + 5 * n)%nat → succeeds dev k = true
  | Failed c w' =>
      ∃ k, (checked_calls w ≤ k < checked_calls w + 5 * n)%nat
           ∧ succeeds dev k = false
           ∧ (∀ j, (checked_calls w ≤ j < k)%nat → succeeds dev j = true)
           ∧ checked_calls w' = S k
           ∧ last (calls w') = Some c
           ∧ bytes_processed (state w') = bytes_processed (state w)
           ∧ items_processed (state w') = items_processed (state w)
  end.
Proof.
  revert w. induction n as [|n IH]; intros w; [intros k; lia|].
  cbn [repeat_body]. run_pure.
  run_check H1; world_fields_in H1;
    [|stops_here (checked_calls w) H1].
  run_check H2; world_fields_in H2;
    [|stops_here (S (checked_calls w)) H2].
  run_check H3; world_fields_in H3;
    [|stops_here (S (S (checked_calls w))) H3].
  run_check H4; world_fields_in H4;
    [|stops_here (S (S (S (checked_calls w)))) H4].
  run_check H5; world_fields_in H5;
    [|stops_here (S (S (S (S (checked_calls w))))) H5].
  run_pure.
  match goal with
  | |- context [repeat_body n _ ?W] =>
      specialize (IH W);
      assert (checked_calls W = S (S (S (S (S (checked_calls w)))))) as HW
        by reflexivity;
      assert (bytes_processed (state W) = bytes_processed (state w)
              ∧ items_processed (state W) = items_processed (state w)) as [Hb Hi]
        by (by split);
      destruct (repeat_body n _ W) as [[] w'|c w']
  end.
  - rewrite HW in IH. intros k Hk.
    destruct (decide (k < 5 + checked_calls w)%nat) as [Hlt|Hge];
      [|apply IH; lia].
    clear IH. check_at k.
  - destruct IH as (k & Hk & Hfail & Hfirst & Hchecked & Hlast & Hbytes & Hitems).
    rewrite HW in Hk, Hfirst. exists k.
    split; [lia|]. split; [done|]. split; [|by rewrite Hbytes, Hitems].
    intros j Hj.
    destruct (decide (j < 5 + checked_calls w)%nat) as [Hlt|Hge]; [|apply Hfirst; lia].
    clear Hfirst. check_at j.
Qed.

Ltac stops_early k H :=
  exists k; world_fields;
  split; [lia|]; split; [exact H|]; split; [checks_below|];
  split; [reflexivity|]; split; [apply last_snoc|]; right; split; reflexivity.

Ltac stops_late n k H Hloop :=
  exists k; world_fields;
  split; [lia|]; split; [exact H|]; split;
    [let j := fresh "j" in let Hj := fresh "Hj" in
     intros j Hj;
     destruct (decide (5 ≤ j < 5 + 5 * n)%nat) as [?|?];
       [apply Hloop; lia|clear Hloop; check_at j]|];
  split; [reflexivity|]; split; [apply last_snoc|]; left;
  by apply (bool_decide_unpack _).

(** A whole run consults the device for [5 * n + 8] calls, in order, and
    stops at the first that fails. *)
Lemma run_benchmark_checks n :
  match run_benchmark dev T g Distribution config (initial_world n) with
  | Returned _ w =>
      checked_calls w = (5 * n + 8)%nat
      ∧ ∀ k, (k < 5 * n + 8)%nat → succeeds dev k = true
  | Failed c w =>
      ∃ k, (k < 5 * n + 8)%nat
           ∧ succeeds dev k = false
           ∧ (∀ j, (j < k)%nat → succeeds dev j = true)
           ∧ checked_calls w = S k
           ∧ last (calls w) = Some c
           ∧ (c ∈ [hipEventDestroy stop; hipEventDestroy start; hipFree]
              ∨ bytes_processed (state w) = None ∧ items_processed (state w) = None)
  end.
Proof.
  unfold run_benchmark.
  run_check H0; world_fields_in H0; [|stops_early 0%nat H0].
  run_pure.
  run_check H1; world_fields_in H1; [|stops_early 1%nat H1].
  run_check H2; world_fields_in H2; [|stops_early 2%nat H2].
  run_check H3; world_fields_in H3; [|stops_early 3%nat H3].
  run_check H4; world_fields_in H4; [|stops_early 4%nat H4].
  rewrite bind_case. unfold for_state at 1.
  match goal with
  | |- context [repeat_body _ _ ?W] =>
      pose proof (repeat_body_outcome n W) as Hloop;
      pose proof (repeat_body_checks n W) as Hchecks;
      pose proof (resources_after_iterations n W) as (_ & _ & Hchecked);
      change (max_iterations (state W)) with n;
      change (checked_calls W) with 5%nat in Hchecks, Hchecked;
      change (bytes_processed (state W)) with (@None Z) in Hchecks;
      change (items_processed (state W)) with (@None Z) in Hchecks
  end.
  destruct (repeat_body n _ _) as [[] w|c w].
  - subst w. revert Hchecked.
    generalize (after_iterations dev g Distribution config n).
    intros after.
    match goal with |- context [after ?W] => generalize (after W) end.
    intros [cs k d es st]. world_fields. intros ->.
    run_pure. run_pure. run_pure. run_pure.
    run_check H5; world_fields_in H5;
      [|stops_late n (5 + 5 * n)%nat H5 Hchecks].
    run_check H6; world_fields_in H6;
      [|stops_late n (S (5 + 5 * n)) H6 Hchecks].
    run_check H7; world_fields_in H7;
      [|stops_late n (S (S (5 + 5 * n))) H7 Hchecks].
    cbn [mret run_ret]. world_fields. split; [lia|].
    intros j Hj.
    destruct (decide (5 ≤ j < 5 + 5 * n)%nat); [apply Hchecks; lia|].
    clear Hchecks. check_at j.
  - destruct Hchecks as (k & Hk & Hfail & Hfirst & Hstop & Hlast & Hbytes & Hitems).
    exists k. split; [lia|]. split; [done|]. split; [|by auto].
    intros j Hj.
    destruct (decide (5 ≤ j)%nat); [apply Hfirst; lia|].
    clear Hfirst. check_at j.
Qed.

(** *** The log and the count of checked calls *)

Lemma keeps_log_count_bind {A B} (m : run A) (f : A → run B) :
  keeps_log_count m → (∀ a, keeps_log_count (f a)) → keeps_log_count (m ≫= f).
Proof.
  intros Hm Hf w Hw. rewrite bind_case. specialize (Hm w Hw).
  destruct (m w) as [a w'|c w']; [by apply Hf|done].
Qed.

Lemma log_counts_checks_log c w :
  log_counts_checks w →
  length (filter is_checked (calls (log c w)))
  = ((if is_checked c then 1 else 0) + checked_calls w)%nat.
Proof.
  unfold log_counts_checks. intros <-. cbn [calls log].
  rewrite filter_app, length_app, filter_cons, filter_nil.
  destruct (is_checked c); simpl; lia.
Qed.

Lemma keeps_log_count_HIP_CHECK c :
  is_checked c = true → keeps_log_count (HIP_CHECK dev c).
Proof.
  intros Hc w Hw. unfold HIP_CHECK.
  pose proof (log_counts_checks_log c w Hw) as Hlog. rewrite Hc in Hlog.
  destruct (succeeds dev (checked_calls w)); [|exact Hlog].
  unfold log_counts_checks. by destruct c.
Qed.

Lemma keeps_log_count_unlogged {A} (m : run A) :
  (∀ w, ∃ a w', m w = Returned a w'
                ∧ checked_calls w' = checked_calls w
                ∧ (calls w' = calls w
                   ∨ ∃ c, is_checked c = false ∧ calls w' = calls (log c w))) →
  keeps_log_count m.
Proof.
  intros Hm w Hw. destruct (Hm w) as (a & w' & -> & Hchecked & [Hcalls|(c & Hc & Hcalls)]);
    unfold log_counts_checks; rewrite Hchecked, Hcalls; [done|].
  rewrite (log_counts_checks_log c w Hw), Hc. done.
Qed.

Lemma keeps_log_count_repeat_body n (body : run ()) :
  keeps_log_count body → keeps_log_count (repeat_body n body).
Proof.
  intros Hbody. induction n as [|n IH]; [by intros w Hw|].
  cbn [repeat_body]. apply keeps_log_count_bind.
  - apply keeps_log_count_unlogged. intros w. eexists _, _. by split; [|split; [|left]].
  - intros _. by apply keeps_log_count_bind.
Qed.

Lemma run_benchmark_keeps_log_count :
  keeps_log_count (run_benchmark dev T g Distribution config).
Proof.
  unfold run_benchmark.
  repeat first
    [ apply keeps_log_count_bind; [|intros ?]
    | by apply keeps_log_count_HIP_CHECK
    | apply keeps_log_count_unlogged; intros ?; eexists _, _;
      split; [reflexivity|]; split; [reflexivity|];
      first [ by left | right; eexists; split; [|reflexivity]; reflexivity ]
    | intros w Hw; apply (keeps_log_count_repeat_body _ _); [|exact Hw] ].
Qed.

(** C7.  A run follows one protocol up to the point where it returns or a
    check fails: allocation and stream binding, then one warm-up [generate]
    followed by [hipDeviceSynchronize], the creation of the two events, and
    then, for each iteration, [hipEventRecord start], [generate],
    [hipEventRecord stop], [hipEventSynchronize stop], [hipEventElapsedTime]
    and [SetIterationTime] with the quotient, in [float] arithmetic, of the
    elapsed milliseconds by 1000.  A run returns only when the device lets
    every call succeed, and has then made all these calls.  A run fails
    only at the first call the device lets fail: its log is the protocol
    cut right after that call, and wherever an event has been recorded the
    warm-up lies before it. *)
Theorem timed_run_follows_protocol n :
  match run_benchmark dev T g Distribution config (initial_world n) with
  | Returned _ w =>
      calls w
      = warm_up_calls T g Distribution config
        ++ measured_calls dev g Distribution config 5 n
        ++ closing_calls T config n
      ∧ ∀ k, (k < 5 * n + 8)%nat → succeeds dev k = true
  | Failed c w =>
      (∃ k, (k < 5 * n + 8)%nat
            ∧ succeeds dev k = false
            ∧ (∀ j, (j < k)%nat → succeeds dev j = true)
            ∧ length (filter is_checked (calls w)) = S k)
      ∧ last (calls w) = Some c
      ∧ calls w `prefix_of`
          warm_up_calls T g Distribution config
          ++ measured_calls dev g Distribution config 5 n
          ++ closing_calls T config n
      ∧ ∀ e, hipEventRecord e ∈ calls w →
          warm_up_calls T g Distribution config `prefix_of` calls w
  end.
Proof.
  pose proof (run_benchmark_outcome n) as H.
  pose proof (run_benchmark_checks n) as Hchecks.
  pose proof (run_benchmark_keeps_log_count (initial_world n) eq_refl) as Hcount.
  destruct (run_benchmark _ _ _ _ _ _) as [[] w|c w].
  - destruct H as (? & _), Hchecks as (_ & ?). by split.
  - destruct H as (_ & Hprefix & _).
    destruct Hchecks as (k & Hk & Hfail & Hfirst & Hstop & Hlast & _).
    unfold log_counts_checks in Hcount. rewrite Hstop in Hcount.
    split; [by exists k|]. split; [done|]. split; [done|].
    intros e He.
    destruct (prefix_weak_total (calls w) (warm_up_calls T g Distribution config)
                (protocol dev T g Distribution config n)) as [[l Hl]|Hw];
      [done|by apply prefix_app_r|exfalso|done].
    assert (hipEventRecord e ∈ warm_up_calls T g Distribution config) as Hin.
    { rewrite Hl. apply elem_of_app. by left. }
    unfold warm_up_calls in Hin.
    repeat (apply elem_of_cons in Hin as [Hin|Hin]; [discriminate Hin|]).
    by apply elem_of_nil in Hin.
Qed.


(** X11.  No totals for a run that failed: unless the failing call is one of
    the three releases at the end, neither the bytes nor the items processed
    have been reported when the run stops. *)
Theorem failed_run_reports_no_totals n c w :
  run_benchmark dev T g Distribution config (initial_world n) = Failed c w →
  c ∉ [hipEventDestroy stop; hipEventDestroy start; hipFree] →
  bytes_processed (state w) = None ∧ items_processed (state w) = None.
Proof.
  intros Hrun Hc. pose proof (run_benchmark_checks n) as H.
  rewrite Hrun in H. destruct H as (k & _ & _ & _ & _ & _ & [Hin|Hnone]); done.
Qed.

(** X9.  When the allocation fails, [hipMalloc] is the only call of the run:
    the generator is not touched, no event is created, nothing is
    reported. *)
Theorem allocation_failure_stops_everything n :
  succeeds dev 0 = false →
  run_benchmark dev T g Distribution config (initial_world n)
  = Failed (hipMalloc (size_t_mul (size config) (sizeof T)))
      {| calls := [hipMalloc (size_t_mul (size config) (sizeof T))];
         checked_calls := 1; data := false; events := [];
         state := initial_state n |}.
Proof.
  intros Hfail. unfold run_benchmark.
  rewrite HIP_CHECK_bind. cbn [checked_calls initial_world]. by rewrite Hfail.
Qed.

(** *** Counting the calls of a run *)

Lemma occurrences_cons {A} `{EqDecision A} (c x : A) (l : list A) :
  occurrences c (x :: l)
  = ((if decide (x = c) then 1 else 0) + occurrences c l)%nat.
Proof.
  unfold occurrences. rewrite filter_cons. by destruct (decide (x = c)).
Qed.

Ltac count_calls :=
  rewrite ?occurrences_cons;
  repeat first [ rewrite decide_True by reflexivity
               | rewrite decide_False by discriminate ];
  change (occurrences _ []) with 0%nat.

Lemma occurrences_iteration c k :
  (∀ q, c ≠ SetIterationTime q) →
  occurrences c (iteration_calls dev g Distribution config k)
  = occurrences c (iteration_calls dev g Distribution config 0).
Proof.
  intros Hc. unfold iteration_calls. rewrite !occurrences_cons.
  repeat match goal with
  | |- context [decide (SetIterationTime ?q = c)] =>
      rewrite (decide_False (P := SetIterationTime q = c))
        by (intros Heq; by apply (Hc q))
  end.
  done.
Qed.

Lemma occurrences_measured c k n :
  (∀ q, c ≠ SetIterationTime q) →
  occurrences c (measured_calls dev g Distribution config k n)
  = (n * occurrences c (iteration_calls dev g Distribution config 0))%nat.
Proof.
  intros Hc. revert k. induction n as [|n IH]; intros k; [done|].
  cbn [measured_calls]. rewrite occurrences_app, IH, occurrences_iteration by done.
  lia.
Qed.

Lemma functions_of_measured_calls f k n :
  occurrences f (function_called <$> measured_calls dev g Distribution config k n)
  = (n * occurrences f
           (function_called <$> iteration_calls dev g Distribution config 0))%nat.
Proof.
  revert k. induction n as [|n IH]; intros k; [done|].
  cbn [measured_calls]. rewrite fmap_app, occurrences_app, IH.
  change (function_called <$> iteration_calls dev g Distribution config k)
    with (function_called <$> iteration_calls dev g Distribution config 0).
  lia.
Qed.

Lemma length_measured_calls k n :
  length (measured_calls dev g Distribution config k n) = (6 * n)%nat.
Proof.
  revert k. induction n as [|n IH]; intros k; [done|].
  cbn [measured_calls]. rewrite length_app, IH. simpl. lia.
Qed.

Ltac count_functions :=
  rewrite !fmap_app, !occurrences_app, functions_of_measured_calls;
  repeat match goal with
  | |- context [occurrences ?f (function_called <$> ?l)] =>
      let v := eval vm_compute in (occurrences f (function_called <$> l)) in
      change (occurrences f (function_called <$> l)) with v
  end;
  lia.

(** X10.  A run that returns has called [generate] once more than it has
    made iterations, the one call outside the timed region being the
    warm-up, and every time for [config.size] values of the distribution.
    It has called [hipEventRecord] twice per iteration, once on each event,
    [hipEventSynchronize] once per iteration, on the stop event,
    [hipEventElapsedTime] and [SetIterationTime] once per iteration,
    [hipDeviceSynchronize], [hipMalloc], [hipFree], [set_stream],
    [SetBytesProcessed] and [SetItemsProcessed] once only, and
    [hipEventCreate] and [hipEventDestroy] twice, once on each event.  The
    counts are of all calls of a function, whatever the arguments. *)
Theorem calls_of_a_returned_run n w :
  run_benchmark dev T g Distribution config (initial_world n) = Returned () w →
  (occurrences "generate" (function_called <$> calls w) = S n
   ∧ occurrences "hipEventRecord" (function_called <$> calls w) = (2 * n)%nat
   ∧ occurrences "hipEventSynchronize" (function_called <$> calls w) = n
   ∧ occurrences "hipEventElapsedTime" (function_called <$> calls w) = n
   ∧ occurrences "SetIterationTime" (function_called <$> calls w) = n
   ∧ occurrences "hipDeviceSynchronize" (function_called <$> calls w) = 1%nat
   ∧ occurrences "hipMalloc" (function_called <$> calls w) = 1%nat
   ∧ occurrences "hipFree" (function_called <$> calls w) = 1%nat
   ∧ occurrences "set_stream" (function_called <$> calls w) = 1%nat
   ∧ occurrences "SetBytesProcessed" (function_called <$> calls w) = 1%nat
   ∧ occurrences "SetItemsProcessed" (function_called <$> calls w) = 1%nat
   ∧ occurrences "hipEventCreate" (function_called <$> calls w) = 2%nat
   ∧ occurrences "hipEventDestroy" (function_called <$> calls w) = 2%nat
   ∧ length (calls w) = (6 * n + 11)%nat)
  ∧ occurrences (generate g (size config) Distribution) (calls w) = S n
  ∧ occurrences (hipEventRecord start) (calls w) = n
  ∧ occurrences (hipEventRecord stop) (calls w) = n
  ∧ occurrences (hipEventSynchronize stop) (calls w) = n
  ∧ occurrences (hipEventElapsedTime start stop) (calls w) = n
  ∧ occurrences hipDeviceSynchronize (calls w) = 1%nat
  ∧ occurrences (hipMalloc (size_t_mul (size config) (sizeof T))) (calls w) = 1%nat
  ∧ occurrences hipFree (calls w) = 1%nat
  ∧ ∀ e, occurrences (hipEventCreate e) (calls w) = 1%nat
         ∧ occurrences (hipEventDestroy e) (calls w) = 1%nat.
Proof.
  intros Hrun. pose proof (run_benchmark_outcome n) as H.
  rewrite Hrun in H. destruct H as (-> & _).
  unfold protocol. split.
  { repeat split; try count_functions.
    rewrite !length_app, length_measured_calls. simpl. lia. }
  repeat split;
    try match goal with e : hipEvent_t |- _ => destruct e end;
    rewrite !occurrences_app, occurrences_measured by done;
    unfold warm_up_calls, closing_calls, iteration_calls;
    count_calls; lia.
Qed.

End run_properties.

(** ** Examples *)


(** The two scenarios of the specification: with a minimum of 512 both
    shapes are retained, (64, 8) reaching it exactly; with 600 only
    (128, 8) is. *)
Example retained_at_512 :
  retained_combinations example_thread_options example_block_options 512
  = [(64, 8); (128, 8)].
Proof. reflexivity. Qed.

Example retained_at_600 :
  retained_combinations example_thread_options example_block_options
    example_min_grid_size
  = [(128, 8)].
Proof. reflexivity. Qed.

(** The third scenario: [unsigned short] gets the uniform distribution
    only. *)
Example names_for_unsigned_short :
  benchmark_name <$>
    m_benchmarks
      (add_benchmarks example_thread_options example_block_options
         example_min_grid_size example_generator_type example_engine_name
         example_distribution_name unsigned_short
         (fresh_factory rocrand_xorwow_template example_config))
  = ["xorwow_uniform_ushort_t128_b8"].
Proof. by vm_compute. Qed.

Example names_for_unsigned_int :
  benchmark_name <$>
    m_benchmarks
      (add_benchmarks example_thread_options example_block_options
         512 example_generator_type example_engine_name
         example_distribution_name unsigned_int
         (fresh_factory rocrand_xorwow_template example_config))
  = ["xorwow_uniform_uint_t64_b8"; "xorwow_uniform_uint_t128_b8";
     "xorwow_poisson_t64_b8"; "xorwow_poisson_t128_b8"].
Proof. by vm_compute. Qed.

(** A run of two iterations on a device without failures. *)
Example healthy_run :
  ∃ w,
    run_benchmark (healthy 2) float example_generator
      (normal_distribution float) example_config (initial_world 2)
    = Returned () w
    ∧ data w = false ∧ events w = []
    ∧ bytes_processed (state w) = Some 8192%Z
    ∧ items_processed (state w) = Some 2048%Z
    ∧ length (calls w) = 23%nat.
Proof. eexists. split; [by vm_compute|]. done. Qed.

(** The example naming tells the selected distributions apart. *)
Lemma example_distribution_names_differ T1 T2 D1 D2 :
  D1 ∈ selected_distributions T1 → D2 ∈ selected_distributions T2 →
  example_distribution_name D1 = example_distribution_name D2 → D1 = D2.
Proof.
  intros H1 H2.
  destruct T1; simpl in H1;
    repeat (apply elem_of_cons in H1 as [->|H1]);
    try (by apply elem_of_nil in H1);
    destruct T2; simpl in H2;
    repeat (apply elem_of_cons in H2 as [->|H2]);
    try (by apply elem_of_nil in H2);
    by vm_compute.
Qed.

(** C2 at xorwow and [unsigned long long]. *)
Lemma unsupported_type_registers_nothing_witness :
  output_type_supported unsigned_long_long rocrand_xorwow_template = false
  ∧ add_benchmarks example_thread_options example_block_options
      example_min_grid_size example_generator_type example_engine_name
      example_distribution_name unsigned_long_long
      (fresh_factory rocrand_xorwow_template example_config)
    = fresh_factory rocrand_xorwow_template example_config.
Proof.
  split; [reflexivity|].
  apply unsupported_type_registers_nothing. reflexivity.
Defined.

(** C3 at xorwow and [unsigned int]: the shape (128, 8) carries the Poisson
    distribution once. *)
Lemma integral_types_uniform_and_poisson_witness :
  is_integral unsigned_int = true
  ∧ ∃ new,
      m_benchmarks
        (add_benchmarks example_thread_options example_block_options
           example_min_grid_size example_generator_type example_engine_name
           example_distribution_name unsigned_int
           (fresh_factory rocrand_xorwow_template example_config))
      = [] ++ new
      ∧ occurrences (poisson_alias, (128, 8)) (registered_as <$> new) = 1%nat.
Proof.
  split; [reflexivity|].
  destruct (integral_types_uniform_and_poisson example_thread_options
              example_block_options example_min_grid_size example_generator_type
              example_engine_name example_distribution_name unsigned_int
              (fresh_factory rocrand_xorwow_template example_config) eq_refl)
    as (new & Hnew & _ & Hcount).
  exists new. split; [exact Hnew|].
  apply (Hcount eq_refl (128, 8)). apply list_elem_of_here.
Defined.

(** C4 at xorwow and [float]: three benchmarks for the one retained shape. *)
Lemma floating_point_types_three_distributions_witness :
  output_type_supported float rocrand_xorwow_template = true
  ∧ float ∈ [float; double; half]
  ∧ ∃ new,
      m_benchmarks
        (add_benchmarks example_thread_options example_block_options
           example_min_grid_size example_generator_type example_engine_name
           example_distribution_name float
           (fresh_factory rocrand_xorwow_template example_config))
      = [] ++ new
      ∧ length new = 3%nat.
Proof.
  split; [reflexivity|]. split; [apply list_elem_of_here|].
  destruct (floating_point_types_three_distributions example_thread_options
              example_block_options example_min_grid_size example_generator_type
              example_engine_name example_distribution_name float
              (fresh_factory rocrand_xorwow_template example_config)
              eq_refl (list_elem_of_here _ _))
    as (new & Hnew & Hlength & _).
  exists new. split; [exact Hnew|exact Hlength].
Defined.

(** The names under the example naming are pairwise different. *)
Lemma benchmark_names_unique_witness :
  ∃ new,
    add_all_benchmarks_for_generator example_thread_options example_block_options
      example_min_grid_size example_generator_type example_engine_name
      example_distribution_name rocrand_xorwow_template [] example_config
    = [] ++ new
    ∧ NoDup (benchmark_name <$> new).
Proof.
  destruct (benchmark_names_unique example_thread_options example_block_options
              example_min_grid_size example_generator_type example_engine_name
              example_distribution_name rocrand_xorwow_template [] example_config
              example_distribution_names_differ)
    as (new & Hnew & Hnames & _).
  exists new. split; [exact Hnew|exact Hnames].
Defined.

(** ** The minimum grid size *)

Lemma filter_sublist_weaken {A} (P Q : A → Prop)
    `{∀ x, Decision (P x), ∀ x, Decision (Q x)} (l : list A) :
  (∀ x, P x → Q x) → filter P l `sublist_of` filter Q l.
Proof.
  intros HPQ. induction l as [|x l IH]; [done|].
  rewrite !filter_cons. destruct (decide (P x)) as [HP|HP].
  - rewrite decide_True by auto. by apply sublist_skip.
  - destruct (decide (Q x)); [by apply sublist_cons|done].
Qed.

Lemma registered_for_sublist thread_options block_options (lower higher : N)
    generator_type engine_name distribution_name G config T :
  lower ≤ higher →
  registered_for thread_options block_options higher
    generator_type engine_name distribution_name G config T
  `sublist_of`
  registered_for thread_options block_options lower
    generator_type engine_name distribution_name G config T.
Proof.
  intros Hle. unfold registered_for.
  assert (retained_combinations thread_options block_options higher
          `sublist_of` retained_combinations thread_options block_options lower)
    as Hretained.
  { apply filter_sublist_weaken. intros c. simpl. lia. }
  induction (applicable_distributions G T) as [|D ds IH]; [done|].
  rewrite !bind_cons. apply sublist_app; [|done]. by apply fmap_sublist.
Qed.

(** X4.  Raising the minimum grid size only takes benchmarks away: the
    suite registered with the larger minimum is the suite registered with
    the smaller one with some benchmarks left out, the others unchanged and
    in the same order. *)
Theorem raising_the_minimum_drops_benchmarks thread_options block_options
    (lower higher : N) generator_type engine_name distribution_name G config :
  lower ≤ higher →
  add_all_benchmarks_for_generator thread_options block_options higher
    generator_type engine_name distribution_name G [] config
  `sublist_of`
  add_all_benchmarks_for_generator thread_options block_options lower
    generator_type engine_name distribution_name G [] config.
Proof.
  intros Hle. rewrite !add_all_benchmarks_appends. cbn [app].
  unfold output_types. rewrite !bind_cons.
  repeat (apply sublist_app; [by apply registered_for_sublist|]).
  done.
Qed.

(** ** Further examples *)

(** X5 with a minimum of 2000, which neither 64 * 8 nor 128 * 8 reaches. *)
Lemma nothing_registered_below_minimum_witness :
  add_all_benchmarks_for_generator example_thread_options example_block_options
    2000 example_generator_type example_engine_name example_distribution_name
    rocrand_xorwow_template [] example_config
  = [].
Proof.
  apply nothing_registered_below_minimum.
  intros c Hc. vm_compute in Hc.
  repeat (apply elem_of_cons in Hc as [->|Hc]; [reflexivity|]).
  by apply elem_of_nil in Hc.
Defined.

(** X6 with the naming by kind: the uniform distributions of two value
    types get one name, and the launch shape is still read back. *)
Lemma name_determines_launch_shape_witness :
  get_benchmark_name example_generator_type example_engine_name kind_name
    rocrand_xorwow_template (uniform_distribution unsigned_int None)
    (make_static_config_provider 128 8)
  = get_benchmark_name example_generator_type example_engine_name kind_name
      (other_template 7) (uniform_distribution float None)
      (make_static_config_provider (64 + 64) (2 * 4))
  ∧ make_static_config_provider 128 8 = make_static_config_provider (64 + 64) (2 * 4).
Proof.
  split; [reflexivity|].
  apply (name_determines_launch_shape example_generator_type example_engine_name
           kind_name rocrand_xorwow_template (other_template 7)
           (uniform_distribution unsigned_int None) (uniform_distribution float None)).
  reflexivity.
Defined.

(** X7 with the naming by kind: [xorwow_uniform_t128_b8] is registered for
    [unsigned int] and again for [float]. *)
Lemma same_distribution_name_collides_witness :
  ¬ NoDup (benchmark_name <$>
             add_all_benchmarks_for_generator example_thread_options
               example_block_options example_min_grid_size example_generator_type
               example_engine_name kind_name rocrand_xorwow_template []
               example_config).
Proof.
  apply (same_distribution_name_collides example_thread_options
           example_block_options example_min_grid_size example_generator_type
           example_engine_name kind_name rocrand_xorwow_template example_config
           unsigned_int float
           (uniform_distribution unsigned_int None) (uniform_distribution float None)).
  - apply list_elem_of_here.
  - apply list_elem_of_here.
  - discriminate.
  - reflexivity.
  - discriminate.
Defined.

(** X9 on a device whose first call fails. *)
Lemma allocation_failure_stops_everything_witness :
  succeeds (failing_at 0 1) 0 = false
  ∧ run_benchmark (failing_at 0 1) float example_generator
      (uniform_distribution float None) example_config (initial_world 3)
    = Failed (hipMalloc (1024 * 4))
        {| calls := [hipMalloc (1024 * 4)];
           checked_calls := 1; data := false; events := [];
           state := initial_state 3 |}.
Proof.
  split; [reflexivity|].
  apply (allocation_failure_stops_everything (failing_at 0 1) float
           example_generator (uniform_distribution float None) example_config 3).
  reflexivity.
Defined.

(** X10 on a device without failures, two iterations. *)
Lemma calls_of_a_returned_run_witness :
  ∃ w,
    run_benchmark (healthy 2) float example_generator
      (normal_distribution float) example_config (initial_world 2)
    = Returned () w
    ∧ occurrences "generate" (function_called <$> calls w) = 3%nat
    ∧ occurrences (generate example_generator 1024 (normal_distribution float))
        (calls w) = 3%nat
    ∧ occurrences hipDeviceSynchronize (calls w) = 1%nat.
Proof.
  eexists. split; [vm_compute; reflexivity|].
  match goal with
  | |- context [calls ?w] =>
      destruct (calls_of_a_returned_run (healthy 2) float example_generator
                  (normal_distribution float) example_config 2 w)
        as ((Hfunction & _) & Hgenerate & _ & _ & _ & _ & Hsync & _);
        [vm_compute; reflexivity|]
  end.
  split; [exact Hfunction|]. split; [exact Hgenerate|exact Hsync].
Defined.

(** X11 on a device whose seventh checked call, the [generate] of the first
    iteration, fails. *)
Lemma failed_run_reports_no_totals_witness :
  ∃ c w,
    run_benchmark (failing_at 6 1) float example_generator
      (uniform_distribution float None) example_config (initial_world 3)
    = Failed c w
    ∧ (c ∉ [hipEventDestroy stop; hipEventDestroy start; hipFree])
    ∧ bytes_processed (state w) = None ∧ items_processed (state w) = None.
Proof.
  eexists _, _. split; [vm_compute; reflexivity|].
  assert (generate example_generator 1024 (uniform_distribution float None)
          ∉ [hipEventDestroy stop; hipEventDestroy start; hipFree]) as Hc
    by (by apply (bool_decide_unpack _)).
  split; [exact Hc|].
  eapply (failed_run_reports_no_totals (failing_at 6 1) float example_generator
            (uniform_distribution float None) example_config 3);
    [vm_compute; reflexivity|exact Hc].
Defined.

(** X4 with the two minima of the scenarios. *)
Lemma raising_the_minimum_drops_benchmarks_witness :
  512 ≤ example_min_grid_size
  ∧ add_all_benchmarks_for_generator example_thread_options example_block_options
      example_min_grid_size example_generator_type example_engine_name
      example_distribution_name rocrand_xorwow_template [] example_config
    `sublist_of`
    add_all_benchmarks_for_generator example_thread_options example_block_options
      512 example_generator_type example_engine_name
      example_distribution_name rocrand_xorwow_template [] example_config.
Proof.
  assert (512 ≤ example_min_grid_size) as Hle by (vm_compute; discriminate).
  split; [exact Hle|].
  by apply raising_the_minimum_drops_benchmarks.
Defined.

(** ** Names under the naming of the specification *)




(** C8, as stated, fails: for one iteration of 2^61 values of type
    [double] the product of 1, 2^61 and 8 is 2^64, and 0 bytes are
    reported. *)
Lemma totals_wrap_around :
  ∃ w,
    run_benchmark (healthy 1) double example_generator
      (uniform_distribution double None) {| size := 2 ^ 61 |} (initial_world 1)
    = Returned () w
    ∧ bytes_processed (state w) = Some 0%Z
    ∧ Z.of_N (1 * 2 ^ 61 * sizeof double) = (2 ^ 64)%Z.
Proof. eexists. split; [by vm_compute|]. done. Qed.
